(** * ADS-B SBS-1 ingestion client: frame decoding, record parsing and the
      receive loops of [adsb_client.py] and [persistent_client.py].

    The development is a shallow embedding.  Python [str] values are lists
    of Unicode code points; the loop [while '\n' in buffer] is a
    well-founded recursion on the buffer; exceptions are values of a small
    result type; the receive loops are step functions over explicit client
    states, with the results of [recv] and the clock readings as inputs.
    [test_client.py] holds a second copy of [parse_sbs_message] and of the
    line loop, the same statement for statement. *)

From Stdlib Require Import Ascii String.
From Stdlib Require Import List NArith ZArith Bool Lia.
From Equations Require Import Equations.
Import ListNotations.

Set Default Goal Selector "!".

(** ** Python strings *)

Module PyStr.

(** A Python [str] is a sequence of Unicode code points. *)
Definition char := N.
Definition str := list char.

(** The code points of a string literal of the source. *)
Fixpoint lit (s : string) : str :=
  match s with
  | EmptyString => []
  | String a t => N_of_ascii a :: lit t
  end.

Definition LF : char := 10%N.
Definition CR : char := 13%N.
Definition COMMA : char := 44%N.

Definition str_eqb (a b : str) : bool :=
  if list_eq_dec N.eq_dec a b then true else false.

(** Truth value of a string in a condition: non-empty. *)
Definition truthy (s : str) : bool :=
  match s with [] => false | _ :: _ => true end.

(** [str.isspace] on one code point: the whitespace set of CPython
    (bidirectional classes WS, B, S and category Zs). *)
Definition isspace (c : char) : bool :=
  ((9 <=? c) && (c <=? 13) || (28 <=? c) && (c <=? 32)
   || (c =? 133) || (c =? 160) || (c =? 5760)
   || (8192 <=? c) && (c <=? 8202)
   || (c =? 8232) || (c =? 8233) || (c =? 8239) || (c =? 8287)
   || (c =? 12288))%N.

Fixpoint dropwhile (p : char -> bool) (s : str) : str :=
  match s with
  | [] => []
  | c :: t => if p c then dropwhile p t else s
  end.

Definition lstrip_by (p : char -> bool) (s : str) : str := dropwhile p s.
Definition rstrip_by (p : char -> bool) (s : str) : str :=
  rev (dropwhile p (rev s)).

(** [s.strip()] *)
Definition strip (s : str) : str := rstrip_by isspace (lstrip_by isspace s).

(** [s.rstrip(chars)] for a one-character [chars] argument: every trailing
    occurrence of the character is removed. *)
Definition rstrip (c : char) (s : str) : str := rstrip_by (N.eqb c) s.

(** [c in s] *)
Definition contains (c : char) (s : str) : bool := existsb (N.eqb c) s.

(** [s.split(sep)] for a one-character separator: never the empty list. *)
Fixpoint split (sep : char) (s : str) : list str :=
  match s with
  | [] => [[]]
  | c :: t =>
      if N.eqb c sep then [] :: split sep t
      else match split sep t with
           | f :: fs => (c :: f) :: fs
           | [] => [[c]]
           end
  end.

(** [s.split(sep, 1)] unpacked into two names: the text before the first
    separator and the text after it.  Without a separator Python's list has
    one element and the unpacking fails; that case is [None]. *)
Fixpoint split1 (sep : char) (s : str) : option (str * str) :=
  match s with
  | [] => None
  | c :: t =>
      if N.eqb c sep then Some ([], t)
      else match split1 sep t with
           | Some (a, b) => Some (c :: a, b)
           | None => None
           end
  end.

(** [s.startswith(prefix)] *)
Fixpoint startswith (prefix s : str) : bool :=
  match prefix, s with
  | [], _ => true
  | _ :: _, [] => false
  | x :: prefix', y :: s' => N.eqb x y && startswith prefix' s'
  end.

End PyStr.

Import PyStr.

(** ** Frame decoding: the loop [while '\n' in buffer] of the receive loops *)

Definition inspect {A : Type} (x : A) : {y : A | x = y} := exist _ x eq_refl.

(** The [while] loop, with the statements after [line = line.rstrip('\r')]
    as [body], run on a client state [st]:
<<
    while '\n' in buffer:
        line, buffer = buffer.split('\n', 1)
        line = line.rstrip('\r')
        body(line)
>>
    The result is the buffer left when the loop exits and the state. *)
Equations? process_complete_lines {S : Type} (body : str -> S -> S)
    (buffer : str) (st : S) : str * S by wf (length buffer) lt :=
  process_complete_lines body buffer st with inspect (split1 LF buffer) := {
    | exist _ (Some (line, rest)) e =>
        process_complete_lines body rest (body (rstrip CR line) st)
    | exist _ None _ => (buffer, st) }.
Proof.
  clear - e. revert line rest e.
  induction buffer as [|c t IH]; intros line rest; simpl; [discriminate|].
  destruct (N.eqb c LF).
  - intros [= <- <-]. lia.
  - destruct (split1 LF t) as [[a b]|]; [|discriminate].
    intros [= <- <-]. specialize (IH _ _ eq_refl). lia.
Qed.

(** The lines the loop hands to its body, in order, and the buffer it
    leaves. *)
Definition extract_lines (buffer : str) : list str * str :=
  let '(rest, ls) :=
    process_complete_lines (fun line acc => acc ++ [line]) buffer [] in
  (ls, rest).

(** One receive: [buffer += data] followed by the loop. *)
Definition decode_step (buffer data : str) : list str * str :=
  extract_lines (buffer ++ data).

(** Successive receives, each starting from the buffer the previous one
    left. *)
Fixpoint decode_chunks (buffer : str) (chunks : list str) : list str * str :=
  match chunks with
  | [] => ([], buffer)
  | data :: more =>
      let '(ls, buffer') := decode_step buffer data in
      let '(ls', buffer'') := decode_chunks buffer' more in
      (ls ++ ls', buffer'')
  end.

(** ** Exceptions and the built-in [int] *)

Inductive exn : Type := ValueError | IndexError.

Inductive result (A : Type) : Type :=
| Ok (a : A)
| Raise (e : exn).
Arguments Ok {A} a.
Arguments Raise {A} e.

Definition bind {A B : Type} (r : result A) (k : A -> result B) : result B :=
  match r with
  | Ok a => k a
  | Raise e => Raise e
  end.

Declare Scope result_scope.
Delimit Scope result_scope with result.
Notation "x <- r ;; k" := (bind r (fun x => k))
  (at level 61, r at next level, right associativity) : result_scope.

(** [try: body  except ValueError: return handler] *)
Definition except_ValueError {A : Type} (body : result A) (handler : A)
  : result A :=
  match body with
  | Raise ValueError => Ok handler
  | other => other
  end.

(** [fields[i]] *)
Definition index (fields : list str) (i : nat) : result str :=
  match nth_error fields i with
  | Some f => Ok f
  | None => Raise IndexError
  end.

Module PyInt.

(** First code points of the runs of ten decimal digits (category Nd) above
    ASCII, Unicode 14.0. *)
Definition decimal_zeros : list N :=
  [1632; 1776; 1984; 2406; 2534; 2662; 2790; 2918; 3046; 3174; 3302; 3430;
   3558; 3664; 3792; 3872; 4160; 4240; 6112; 6160; 6470; 6608; 6784; 6800;
   6992; 7088; 7232; 7248; 42528; 43216; 43264; 43472; 43504; 43600; 44016;
   65296; 66720; 68912; 69734; 69872; 69942; 70096; 70384; 70736; 70864;
   71248; 71360; 71472; 71904; 72016; 72784; 73040; 73120; 92768; 92864;
   93008; 120782; 120792; 120802; 120812; 120822; 123200; 123632; 125264;
   130032]%N.

Definition unicode_decimal (c : char) : option N :=
  match find (fun z => (z <=? c) && (c <? z + 10))%N decimal_zeros with
  | Some z => Some (c - z)%N
  | None => None
  end.

(** The digit value [int] gives a code point: ASCII digits as they are, other
    code points through the Unicode decimal property. *)
Definition decimal_value (c : char) : option N :=
  if (c <? 127)%N then
    if ((48 <=? c) && (c <=? 57))%N then Some (c - 48)%N else None
  else unicode_decimal c.

(** The blanks [int] skips around the number: the C locale's blanks among
    ASCII, every Unicode whitespace above. *)
Definition int_isspace (c : char) : bool :=
  if (c <? 127)%N then ((9 <=? c) && (c <=? 13) || (c =? 32))%N
  else isspace c.

Definition UNDERSCORE : char := 95%N.
Definition PLUS : char := 43%N.
Definition MINUS : char := 45%N.

(** Digits with single underscores between them, after the first digit.
    [prev_us] holds when the previous character was an underscore.  The
    result is the value and the text left. *)
Fixpoint scan_digits (acc : Z) (prev_us : bool) (s : str)
  : option (Z * str) :=
  match s with
  | [] => if prev_us then None else Some (acc, [])
  | c :: t =>
      match decimal_value c with
      | Some d => scan_digits (10 * acc + Z.of_N d) false t
      | None =>
          if N.eqb c UNDERSCORE then
            if prev_us then None else scan_digits acc true t
          else if prev_us then None else Some (acc, s)
      end
  end.

Definition scan_number (s : str) : option (Z * str) :=
  match s with
  | [] => None
  | c :: t =>
      match decimal_value c with
      | Some d => scan_digits (Z.of_N d) false t
      | None => None
      end
  end.

(** [int(s)] for a [str] argument (base 10): blanks, an optional sign, the
    digits, blanks; anything else is a [ValueError].  The interpreter's
    configurable ceiling on the number of digits is not part of the model. *)
Definition py_int (s : str) : result Z :=
  let s1 := dropwhile int_isspace s in
  let '(sign, s2) :=
    match s1 with
    | c :: t =>
        if N.eqb c PLUS then (1%Z, t)
        else if N.eqb c MINUS then ((-1)%Z, t)
        else (1%Z, s1)
    | [] => (1%Z, s1)
    end in
  match scan_number s2 with
  | Some (v, rest) =>
      match dropwhile int_isspace rest with
      | [] => Ok (sign * v)%Z
      | _ :: _ => Raise ValueError
      end
  | None => Raise ValueError
  end.





End PyInt.

Import PyInt.

(** ** The record parser [parse_sbs_message] *)

Local Open Scope result_scope.

Section Parser.

(** Python's [float] values and the built-in [float] on a [str]: [None] is
    its [ValueError], the only exception it raises on a [str]. *)
Variable float : Type.
Variable py_float : str -> option float.

Record ADSBMessage : Type := mkADSBMessage {
  message_type : str;
  transmission_type : option Z;
  session_id : option Z;
  aircraft_id : option Z;
  hex_ident : option str;
  flight_id : option Z;
  date_generated : option str;
  time_generated : option str;
  date_logged : option str;
  time_logged : option str;
  callsign : option str;
  altitude : option Z;
  ground_speed : option Z;
  track : option Z;
  latitude : option float;
  longitude : option float;
  vertical_rate : option Z;
  squawk : option str;
  alert : option bool;
  emergency : option bool;
  spi : option bool;
  is_on_ground : option bool
}.

Definition safe_int (value : str) : result (option Z) :=
  except_ValueError
    (if truthy (strip value) then n <- py_int value ;; Ok (Some n)
     else Ok None)
    None.

Definition safe_float (value : str) : result (option float) :=
  except_ValueError
    (if truthy (strip value) then
       match py_float value with
       | Some x => Ok (Some x)
       | None => Raise ValueError
       end
     else Ok None)
    None.

Definition safe_bool (value : str) : option bool :=
  if str_eqb (strip value) (lit "1") then Some true
  else if str_eqb (strip value) (lit "0") then Some false
  else None.

(** [fields[i] if fields[i].strip() else None] *)
Definition field_or_none (fields : list str) (i : nat)
  : result (option str) :=
  c <- index fields i ;;
  if truthy (strip c) then v <- index fields i ;; Ok (Some v) else Ok None.

(** [fields[i].strip() if fields[i].strip() else None] *)
Definition stripped_or_none (fields : list str) (i : nat)
  : result (option str) :=
  c <- index fields i ;;
  if truthy (strip c) then v <- index fields i ;; Ok (Some (strip v))
  else Ok None.

(** The body of the [try] block. *)
Definition parse_fields (line : str) : result (option ADSBMessage) :=
  let fields := split COMMA (strip line) in
  if (length fields <? 22)%nat then Ok None else
  f0 <- index fields 0 ;;
  if negb (str_eqb f0 (lit "MSG")) then Ok None else
  v0 <- index fields 0 ;;
  f1 <- index fields 1 ;; v1 <- safe_int f1 ;;
  f2 <- index fields 2 ;; v2 <- safe_int f2 ;;
  f3 <- index fields 3 ;; v3 <- safe_int f3 ;;
  v4 <- field_or_none fields 4 ;;
  f5 <- index fields 5 ;; v5 <- safe_int f5 ;;
  v6 <- field_or_none fields 6 ;;
  v7 <- field_or_none fields 7 ;;
  v8 <- field_or_none fields 8 ;;
  v9 <- field_or_none fields 9 ;;
  v10 <- stripped_or_none fields 10 ;;
  f11 <- index fields 11 ;; v11 <- safe_int f11 ;;
  f12 <- index fields 12 ;; v12 <- safe_int f12 ;;
  f13 <- index fields 13 ;; v13 <- safe_int f13 ;;
  f14 <- index fields 14 ;; v14 <- safe_float f14 ;;
  f15 <- index fields 15 ;; v15 <- safe_float f15 ;;
  f16 <- index fields 16 ;; v16 <- safe_int f16 ;;
  v17 <- field_or_none fields 17 ;;
  f18 <- index fields 18 ;; let v18 := safe_bool f18 in
  f19 <- index fields 19 ;; let v19 := safe_bool f19 in
  f20 <- index fields 20 ;; let v20 := safe_bool f20 in
  f21 <- index fields 21 ;; let v21 := safe_bool f21 in
  Ok (Some (mkADSBMessage v0 v1 v2 v3 v4 v5 v6 v7 v8 v9 v10 v11 v12 v13 v14
              v15 v16 v17 v18 v19 v20 v21)).

(** [parse_sbs_message]: the guard on blank lines, then the [try] block
    with [except Exception: ... return None]. *)
Definition parse_sbs_message (line : str) : option ADSBMessage :=
  if negb (truthy (strip line)) || str_eqb (strip line) [] then None
  else match parse_fields line with
       | Ok r => r
       | Raise _ => None
       end.

(** The fields of a record by position, for statements that range over
    positions. *)
Inductive field_value : Type :=
| VInt (v : option Z)
| VFloat (v : option float)
| VBool (v : option bool)
| VStr (v : option str).

Definition is_absent (v : field_value) : bool :=
  match v with
  | VInt None | VFloat None | VBool None | VStr None => true
  | _ => false
  end.

Definition field_at (m : ADSBMessage) (i : nat) : option field_value :=
  match i with
  | 0 => Some (VStr (Some (message_type m)))
  | 1 => Some (VInt (transmission_type m))
  | 2 => Some (VInt (session_id m))
  | 3 => Some (VInt (aircraft_id m))
  | 4 => Some (VStr (hex_ident m))
  | 5 => Some (VInt (flight_id m))
  | 6 => Some (VStr (date_generated m))
  | 7 => Some (VStr (time_generated m))
  | 8 => Some (VStr (date_logged m))
  | 9 => Some (VStr (time_logged m))
  | 10 => Some (VStr (callsign m))
  | 11 => Some (VInt (altitude m))
  | 12 => Some (VInt (ground_speed m))
  | 13 => Some (VInt (track m))
  | 14 => Some (VFloat (latitude m))
  | 15 => Some (VFloat (longitude m))
  | 16 => Some (VInt (vertical_rate m))
  | 17 => Some (VStr (squawk m))
  | 18 => Some (VBool (alert m))
  | 19 => Some (VBool (emergency m))
  | 20 => Some (VBool (spi m))
  | 21 => Some (VBool (is_on_ground m))
  | _ => None
  end%nat.

(** The values the coercions return, the record built from a list of
    fields and the field of a record at a position, in closed form. *)
Definition int_field (value : str) : option Z :=
  if truthy (strip value) then
    match py_int value with Ok n => Some n | Raise _ => None end
  else None.

Definition float_field (value : str) : option float :=
  if truthy (strip value) then py_float value else None.

Definition str_field (value : str) : option str :=
  if truthy (strip value) then Some value else None.

Definition trimmed_field (value : str) : option str :=
  if truthy (strip value) then Some (strip value) else None.

(** The record built from a list of fields. *)
Definition record_of (fields : list str) : ADSBMessage :=
  let f i := nth i fields [] in
  mkADSBMessage (f 0) (int_field (f 1)) (int_field (f 2)) (int_field (f 3))
    (str_field (f 4)) (int_field (f 5)) (str_field (f 6)) (str_field (f 7))
    (str_field (f 8)) (str_field (f 9)) (trimmed_field (f 10))
    (int_field (f 11)) (int_field (f 12)) (int_field (f 13))
    (float_field (f 14)) (float_field (f 15)) (int_field (f 16))
    (str_field (f 17)) (safe_bool (f 18)) (safe_bool (f 19))
    (safe_bool (f 20)) (safe_bool (f 21)).

(** The field of a record at a position, from the text at that position. *)
Definition coerce_at (i : nat) (f : str) : field_value :=
  match i with
  | 0 => VStr (Some f)
  | 1 | 2 | 3 | 5 | 11 | 12 | 13 | 16 => VInt (int_field f)
  | 14 | 15 => VFloat (float_field f)
  | 18 | 19 | 20 | 21 => VBool (safe_bool f)
  | 10 => VStr (trimmed_field f)
  | _ => VStr (str_field f)
  end%nat.

End Parser.

Arguments mkADSBMessage {float}.
Arguments message_type {float} _.
Arguments transmission_type {float} _.
Arguments session_id {float} _.
Arguments aircraft_id {float} _.
Arguments hex_ident {float} _.
Arguments flight_id {float} _.
Arguments date_generated {float} _.
Arguments time_generated {float} _.
Arguments date_logged {float} _.
Arguments time_logged {float} _.
Arguments callsign {float} _.
Arguments altitude {float} _.
Arguments ground_speed {float} _.
Arguments track {float} _.
Arguments latitude {float} _.
Arguments longitude {float} _.
Arguments vertical_rate {float} _.
Arguments squawk {float} _.
Arguments alert {float} _.
Arguments emergency {float} _.
Arguments spi {float} _.
Arguments is_on_ground {float} _.
Arguments safe_float {float} py_float value.
Arguments parse_fields {float} py_float line.
Arguments parse_sbs_message {float} py_float line.
Arguments VInt {float} v.
Arguments VFloat {float} v.
Arguments VBool {float} v.
Arguments VStr {float} v.
Arguments is_absent {float} v.
Arguments field_at {float} m i.
Arguments float_field {float} py_float value.
Arguments record_of {float} py_float fields.
Arguments coerce_at {float} py_float i f.

(** ** The receive loops *)

(** What one [self.socket.recv(n).decode('utf-8', errors='ignore')] gives
    the loop: the decoded text (empty when the peer closed the connection),
    a [socket.timeout], another exception, or the user's interrupt. *)
Inductive recv_result : Type :=
| RecvData (data : str)
| RecvTimeout
| RecvError
| RecvInterrupt.

(** Where a client stands: [CONNECTED] inside its receive loop, with an
    open socket; [DISCONNECTED] with the socket closed and the outer loop
    about to call [connect] again; [TERMINATED] once the method has
    returned. *)
Inductive conn_state : Type :=
| DISCONNECTED
| CONNECTED
| TERMINATED.

(** How one pass through a loop body ends. *)
Inductive ctl : Type := Continue | Break | Interrupted.

Section Clients.

Variable float : Type.
Variable py_float : str -> option float.

(** *** [ADSBClient.run] *)

(** The client and its sink: [rows] are the records written to the CSV
    file, oldest first (each goes out with a timestamp, left out here). *)
Record ADSBClient : Type := mkADSBClient {
  phase : conn_state;
  buffer : str;
  message_count : nat;
  rows : list (ADSBMessage float)
}.

Definition save_message (message : ADSBMessage float) (c : ADSBClient)
  : ADSBClient :=
  mkADSBClient (phase c) (buffer c) (message_count c) (rows c ++ [message]).

(** The statements under [line = line.rstrip('\r')] in [run]. *)
Definition handle_line (line : str) (c : ADSBClient) : ADSBClient :=
  if truthy (strip line) then
    match parse_sbs_message py_float line with
    | Some message =>
        let c := save_message message c in
        mkADSBClient (phase c) (buffer c) (S (message_count c)) (rows c)
    | None => c
    end
  else c.

(** The body of [while self.running], after the receive. *)
Definition run_iteration (c : ADSBClient) (r : recv_result)
  : ctl * ADSBClient :=
  match r with
  | RecvData data =>
      if negb (truthy data) then (Break, c)
      else
        let '(buffer', c') :=
          process_complete_lines handle_line (buffer c ++ data) c in
        (Continue,
         mkADSBClient (phase c') buffer' (message_count c') (rows c'))
  | RecvTimeout => (Continue, c)
  | RecvError => (Break, c)
  | RecvInterrupt => (Interrupted, c)
  end.

(** [disconnect] in the [finally] block, after which [run] returns. *)
Definition disconnect (c : ADSBClient) : ADSBClient :=
  mkADSBClient TERMINATED (buffer c) (message_count c) (rows c).

(** One receive of a client; a client that is not connected receives
    nothing. *)
Definition run_step (c : ADSBClient) (r : recv_result) : ADSBClient :=
  match phase c with
  | CONNECTED =>
      match run_iteration c r with
      | (Continue, c') => c'
      | (_, c') => disconnect c'
      end
  | _ => c
  end.

(** [run] after a successful [connect], on the receives that follow. *)
Definition run (rs : list recv_result) : ADSBClient :=
  fold_left run_step rs (mkADSBClient CONNECTED [] 0 []).

(** *** [PersistentADSBClient.run_persistent] *)

(** [raw_rows] are the lines written to the CSV file, oldest first;
    [connection_start] is the clock reading the idle ceiling counts from. *)
Record PersistentADSBClient : Type := mkPersistentADSBClient {
  p_phase : conn_state;
  p_buffer : str;
  p_message_count : nat;
  connection_attempts : nat;
  connection_start : Z;
  raw_rows : list str
}.

(** Seconds without data after which a connection is given up. *)
Definition no_data_timeout : Z := 60.

Definition save_raw_message (message : str) (c : PersistentADSBClient)
  : PersistentADSBClient :=
  mkPersistentADSBClient (p_phase c) (p_buffer c) (S (p_message_count c))
    (connection_attempts c) (connection_start c)
    (raw_rows c ++ [strip message]).

Definition p_handle_line (line : str) (c : PersistentADSBClient)
  : PersistentADSBClient :=
  if truthy (strip line) then save_raw_message line c else c.

(** What one pass through the inner [while] reads from outside: the two
    clock readings of its condition, the receive, and the clock reading
    taken when data has arrived.  Clock readings are in seconds. *)
Record inner_input : Type := mkInnerInput {
  t_end_check : Z;
  t_idle_check : Z;
  received : recv_result;
  t_data : Z
}.

(** One pass through the inner loop of [run_persistent]: the loop condition,
    then the body.  A false condition leaves the loop like a [break]. *)
Definition persistent_iteration (end_time : Z) (c : PersistentADSBClient)
    (i : inner_input) : ctl * PersistentADSBClient :=
  if (t_end_check i <? end_time)%Z
     && (t_idle_check i - connection_start c <? no_data_timeout)%Z
  then
    match received i with
    | RecvData data =>
        if negb (truthy data) then (Break, c)
        else
          let c1 :=
            mkPersistentADSBClient (p_phase c) (p_buffer c)
              (p_message_count c) (connection_attempts c) (t_data i)
              (raw_rows c) in
          let '(buffer', c2) :=
            process_complete_lines p_handle_line (p_buffer c1 ++ data) c1 in
          (Continue,
           mkPersistentADSBClient (p_phase c2) buffer' (p_message_count c2)
             (connection_attempts c2) (connection_start c2) (raw_rows c2))
    | RecvTimeout => (Break, c)
    | RecvError => (Break, c)
    | RecvInterrupt => (Interrupted, c)
    end
  else (Break, c).

Definition p_set_phase (s : conn_state) (c : PersistentADSBClient)
  : PersistentADSBClient :=
  mkPersistentADSBClient s (p_buffer c) (p_message_count c)
    (connection_attempts c) (connection_start c) (raw_rows c).

(** One pass of a connected client.  After the inner loop [disconnect]
    closes the socket and the outer loop goes on to reconnect; an interrupt
    leaves the outer loop. *)
Definition persistent_step (end_time : Z) (c : PersistentADSBClient)
    (i : inner_input) : PersistentADSBClient :=
  match p_phase c with
  | CONNECTED =>
      match persistent_iteration end_time c i with
      | (Continue, c') => c'
      | (Break, c') => p_set_phase DISCONNECTED c'
      | (Interrupted, c') => p_set_phase TERMINATED c'
      end
  | _ => c
  end.

(** The top of the outer loop: its condition on the clock reading [now],
    then [connect], whose result is [connected], and on success the clock
    reading [t_start] that starts the idle count. *)
Definition persistent_connect (end_time now : Z) (connected : bool)
    (t_start : Z) (c : PersistentADSBClient) : PersistentADSBClient :=
  match p_phase c with
  | DISCONNECTED =>
      if (now <? end_time)%Z then
        if connected then
          mkPersistentADSBClient CONNECTED (p_buffer c) (p_message_count c)
            (S (connection_attempts c)) t_start (raw_rows c)
        else
          mkPersistentADSBClient DISCONNECTED (p_buffer c)
            (p_message_count c) (S (connection_attempts c))
            (connection_start c) (raw_rows c)
      else p_set_phase TERMINATED c
  | _ => c
  end.

End Clients.

Arguments mkADSBClient {float}.
Arguments phase {float} _.
Arguments buffer {float} _.
Arguments message_count {float} _.
Arguments rows {float} _.
Arguments save_message {float}.
Arguments handle_line {float} py_float line c.
Arguments run_iteration {float} py_float c r.
Arguments disconnect {float} c.
Arguments run_step {float} py_float c r.
Arguments run {float} py_float rs.

(** ** Worked lines *)

(** The worked lines below leave the two float fields empty, so [float] is
    never called on them; this stand-in lets them be evaluated. *)
Definition float_unused (_ : str) : option unit := None.

Definition sample_line : str :=
  lit "MSG,3,1,1,4840D6,1,2023/01/01,12:00:00,2023/01/01,12:00:00,,38000,,,,,,,,,,0".

Definition sample_record : ADSBMessage unit :=
  mkADSBMessage (lit "MSG") (Some 3%Z) (Some 1%Z) (Some 1%Z)
    (Some (lit "4840D6")) (Some 1%Z) (Some (lit "2023/01/01"))
    (Some (lit "12:00:00")) (Some (lit "2023/01/01")) (Some (lit "12:00:00"))
    None (Some 38000%Z) None None None None None None None None None
    (Some false).

(** ** The test client [TestADSBClient.run_test] *)

Section TestClient.

Variable float : Type.
Variable py_float : str -> option float.

(** [position_messages] counts the saved records that carry a position;
    [start_time] is the clock reading taken after [connect]. *)
Record TestADSBClient : Type := mkTestADSBClient {
  t_phase : conn_state;
  t_buffer : str;
  t_message_count : nat;
  position_messages : nat;
  start_time : Z;
  t_rows : list (ADSBMessage float)
}.

(** [message.latitude is not None and message.longitude is not None] *)
Definition has_position (message : ADSBMessage float) : bool :=
  match latitude message, longitude message with
  | Some _, Some _ => true
  | _, _ => false
  end.

(** [save_message] of the test client: the row, then the position count. *)
Definition test_save_message (message : ADSBMessage float)
    (c : TestADSBClient) : TestADSBClient :=
  mkTestADSBClient (t_phase c) (t_buffer c) (t_message_count c)
    (if has_position message then S (position_messages c)
     else position_messages c)
    (start_time c) (t_rows c ++ [message]).

(** The statements under [line = line.rstrip('\r')] in [run_test]. *)
Definition test_handle_line (line : str) (c : TestADSBClient)
  : TestADSBClient :=
  if truthy (strip line) then
    match parse_sbs_message py_float line with
    | Some message =>
        let c := test_save_message message c in
        mkTestADSBClient (t_phase c) (t_buffer c) (S (t_message_count c))
          (position_messages c) (start_time c) (t_rows c)
    | None => c
    end
  else c.

(** What one pass through [while self.running] reads from outside: the
    clock, then the receive. *)
Record test_input : Type := mkTestInput {
  t_now : Z;
  t_received : recv_result
}.

(** One pass through the loop of [run_test]: the check of the elapsed time,
    then the receive and the lines. *)
Definition test_iteration (test_duration : Z) (c : TestADSBClient)
    (i : test_input) : ctl * TestADSBClient :=
  if (test_duration <=? t_now i - start_time c)%Z then (Break, c)
  else
    match t_received i with
    | RecvData data =>
        if negb (truthy data) then (Break, c)
        else
          let '(buffer', c') :=
            process_complete_lines test_handle_line (t_buffer c ++ data) c in
          (Continue,
           mkTestADSBClient (t_phase c') buffer' (t_message_count c')
             (position_messages c') (start_time c') (t_rows c'))
    | RecvTimeout => (Continue, c)
    | RecvError => (Break, c)
    | RecvInterrupt => (Interrupted, c)
    end.

(** One pass of a connected test client; when the loop is left the
    [finally] block disconnects and [run_test] returns. *)
Definition test_step (test_duration : Z) (c : TestADSBClient)
    (i : test_input) : TestADSBClient :=
  match t_phase c with
  | CONNECTED =>
      match test_iteration test_duration c i with
      | (Continue, c') => c'
      | (_, c') =>
          mkTestADSBClient TERMINATED (t_buffer c') (t_message_count c')
            (position_messages c') (start_time c') (t_rows c')
      end
  | _ => c
  end.

(** [run_test] after a successful [connect] at clock reading [t0]. *)
Definition run_test (test_duration t0 : Z) (inputs : list test_input)
  : TestADSBClient :=
  fold_left (test_step test_duration) inputs
    (mkTestADSBClient CONNECTED [] 0 0 t0 []).

(** The counters of a test client agree with its rows. *)
Definition test_counters_agree (c : TestADSBClient) : Prop :=
  t_message_count c = length (t_rows c) /\
  position_messages c = length (filter has_position (t_rows c)).

End TestClient.

Arguments mkTestADSBClient {float}.
Arguments t_phase {float} _.
Arguments t_buffer {float} _.
Arguments t_message_count {float} _.
Arguments position_messages {float} _.
Arguments start_time {float} _.
Arguments t_rows {float} _.
Arguments has_position {float} message.
Arguments test_save_message {float} message c.
Arguments test_handle_line {float} py_float line c.
Arguments test_iteration {float} py_float test_duration c i.
Arguments test_step {float} py_float test_duration c i.
Arguments run_test {float} py_float test_duration t0 inputs.
Arguments test_counters_agree {float} c.

(** ** The whole of [run_persistent] *)

(** What [run_persistent] reads from outside, in the order its control
    asks for it: at the top of the outer loop the clock, the result of
    [connect] and the clock again; in the inner loop an [inner_input]. *)
Inductive p_event : Type :=
| PConnect (now : Z) (connected : bool) (t_start : Z)
| PReceive (i : inner_input).

(** One step of the run; an input the control is not waiting for is not
    read. *)
Definition persistent_event (end_time : Z) (c : PersistentADSBClient)
    (ev : p_event) : PersistentADSBClient :=
  match ev with
  | PConnect now connected t_start =>
      persistent_connect end_time now connected t_start c
  | PReceive i => persistent_step end_time c i
  end.

(** [run_persistent], from [buffer = ""] and the counters of [__init__].
    [connection_start] is unset until the first connection. *)
Definition run_persistent (end_time : Z) (evs : list p_event)
  : PersistentADSBClient :=
  fold_left (persistent_event end_time) evs
    (mkPersistentADSBClient DISCONNECTED [] 0 0 0 []).

(** ** Vocabulary of the statements about whole runs *)

(** The records of the lines that parse, in order. *)
Definition records_of_lines {float : Type} (py_float : str -> option float)
    (lines : list str) : list (ADSBMessage float) :=
  flat_map (fun line =>
              match parse_sbs_message py_float line with
              | Some message => [message]
              | None => []
              end) lines.

(** The raw rows of the lines that are not blank, in order. *)
Definition raw_rows_of_lines (lines : list str) : list str :=
  map strip (filter (fun line => truthy (strip line)) lines).

(** The text [ADSBClient.run] receives before its connection ends. *)
Fixpoint text_before_end (rs : list recv_result) : str :=
  match rs with
  | [] => []
  | RecvData [] :: _ => []
  | RecvData data :: rs' => data ++ text_before_end rs'
  | RecvTimeout :: rs' => text_before_end rs'
  | RecvError :: _ => []
  | RecvInterrupt :: _ => []
  end.

(** Whether one of the receives ends the connection of [ADSBClient.run]. *)
Fixpoint connection_ends (rs : list recv_result) : bool :=
  match rs with
  | [] => false
  | RecvData [] :: _ => true
  | RecvData _ :: rs' => connection_ends rs'
  | RecvTimeout :: rs' => connection_ends rs'
  | RecvError :: _ => true
  | RecvInterrupt :: _ => true
  end.

(** The text one step of [run_persistent] takes in: the data of a receive
    made by a connected client whose loop condition holds. *)
Definition consumed_by (end_time : Z) (c : PersistentADSBClient)
    (ev : p_event) : str :=
  match ev, p_phase c with
  | PReceive i, CONNECTED =>
      if (t_end_check i <? end_time)%Z
         && (t_idle_check i - connection_start c <? no_data_timeout)%Z
      then match received i with RecvData data => data | _ => [] end
      else []
  | _, _ => []
  end.

(** The text a run takes in, over all its connections. *)
Fixpoint text_consumed (end_time : Z) (c : PersistentADSBClient)
    (evs : list p_event) : str :=
  match evs with
  | [] => []
  | ev :: evs' =>
      consumed_by end_time c ev
      ++ text_consumed end_time (persistent_event end_time c ev) evs'
  end.

(** Receives that keep a persistent connection up: each is made before
    the end of the run, less than [no_data_timeout] seconds after the
    previous data (or the connection), and brings data. *)
Fixpoint timely (end_time start : Z) (inputs : list inner_input)
  : Prop :=
  match inputs with
  | [] => True
  | i :: inputs' =>
      (t_end_check i < end_time)%Z /\
      (t_idle_check i - start < no_data_timeout)%Z /\
      (exists data, data <> [] /\ received i = RecvData data) /\
      timely end_time (t_data i) inputs'
  end.

(** A text that neither begins nor ends with whitespace. *)
Definition trimmed (m : str) : Prop :=
  match m with
  | [] => True
  | x :: _ => isspace x = false /\ isspace (last m x) = false
  end.

(** Lines with their terminators: each line is followed by a number of
    carriage returns and a line feed. *)
Definition terminate (lines : list (str * nat)) : str :=
  concat (map (fun '(line, k) => line ++ repeat CR k ++ [LF]) lines).

(** * Properties *)

(** ** Strings *)

Lemma str_eqb_eq a b : str_eqb a b = true <-> a = b.
Proof.
  unfold str_eqb. destruct (list_eq_dec N.eq_dec a b); split; congruence.
Qed.

Lemma str_eqb_refl a : str_eqb a a = true.
Proof. apply str_eqb_eq; reflexivity. Qed.


Lemma contains_false c s : contains c s = false <-> ~ In c s.
Proof.
  unfold contains. induction s as [|x t IH]; simpl.
  - tauto.
  - rewrite orb_false_iff, IH, N.eqb_neq. intuition congruence.
Qed.

Lemma contains_app c a b :
  contains c (a ++ b) = contains c a || contains c b.
Proof. unfold contains. apply existsb_app. Qed.

Lemma split1_None sep s : split1 sep s = None <-> contains sep s = false.
Proof.
  unfold contains. induction s as [|c t IH]; simpl; [tauto|].
  rewrite (N.eqb_sym sep c). destruct (N.eqb c sep); simpl.
  - split; discriminate.
  - rewrite <- IH. destruct (split1 sep t) as [[a b]|]; split; congruence.
Qed.

Lemma split1_at sep a b :
  contains sep a = false -> split1 sep (a ++ sep :: b) = Some (a, b).
Proof.
  unfold contains. induction a as [|x a IH]; simpl.
  - rewrite N.eqb_refl. reflexivity.
  - intros H. apply orb_false_iff in H as [Hx Ha].
    rewrite N.eqb_sym, Hx, (IH Ha). reflexivity.
Qed.

Lemma split1_Some sep s a b :
  split1 sep s = Some (a, b) -> s = a ++ sep :: b /\ contains sep a = false.
Proof.
  unfold contains. revert a b; induction s as [|c t IH]; intros a b; simpl;
    [discriminate|].
  destruct (N.eqb_spec c sep) as [->|Hne].
  - intros [= <- <-]. auto.
  - destruct (split1 sep t) as [[a' b']|]; [|discriminate].
    intros [= <- <-]. destruct (IH _ _ eq_refl) as [-> Ha']. simpl.
    split; [reflexivity|]. rewrite Ha'.
    apply N.eqb_neq in Hne. rewrite N.eqb_sym, Hne. reflexivity.
Qed.

Lemma split1_shorter sep s a b :
  split1 sep s = Some (a, b) -> length b < length s.
Proof.
  revert a b; induction s as [|c t IH]; intros a b; simpl; [discriminate|].
  destruct (N.eqb c sep).
  - intros [= <- <-]. lia.
  - destruct (split1 sep t) as [[a' b']|]; [|discriminate].
    intros [= <- <-]. specialize (IH _ _ eq_refl). lia.
Qed.

Lemma split1_app sep a b l r :
  split1 sep a = Some (l, r) -> split1 sep (a ++ b) = Some (l, r ++ b).
Proof.
  intros H. apply split1_Some in H as [-> Hl].
  rewrite <- app_assoc. simpl. apply split1_at; assumption.
Qed.

Lemma dropwhile_app_all p a b :
  forallb p a = true -> dropwhile p (a ++ b) = dropwhile p b.
Proof.
  induction a as [|x a IH]; simpl; [reflexivity|].
  intros H. apply andb_true_iff in H as [-> H]. auto.
Qed.

Lemma dropwhile_head p s :
  match s with [] => True | x :: _ => p x = false end -> dropwhile p s = s.
Proof. destruct s as [|x s]; simpl; [reflexivity|]. intros ->. reflexivity. Qed.

Lemma dropwhile_all p s : forallb p s = true -> dropwhile p s = [].
Proof.
  intros H. rewrite <- (app_nil_r s). rewrite dropwhile_app_all by exact H.
  reflexivity.
Qed.

(** [rstrip] removes every trailing occurrence of its character. *)
Lemma rstrip_trailing c d t k :
  last t d <> c -> rstrip c (t ++ repeat c k) = t.
Proof.
  intros Hlast. unfold rstrip, rstrip_by.
  rewrite rev_app_distr, dropwhile_app_all.
  - rewrite dropwhile_head; [apply rev_involutive|].
    destruct (rev t) as [|x u] eqn:E; [exact I|].
    apply (f_equal (@rev _)) in E. rewrite rev_involutive in E. simpl in E.
    subst t. rewrite last_last in Hlast. apply N.eqb_neq. congruence.
  - apply forallb_forall. intros x Hx. apply in_rev in Hx.
    apply repeat_spec in Hx. subst. apply N.eqb_refl.
Qed.

(** ** Frame decoding *)

Lemma process_complete_lines_step {S : Type} (body : str -> S -> S) b st :
  process_complete_lines body b st =
  match split1 LF b with
  | Some (line, rest) =>
      process_complete_lines body rest (body (rstrip CR line) st)
  | None => (b, st)
  end.
Proof.
  rewrite process_complete_lines_equation_1.
  destruct (inspect (split1 LF b)) as [[[l r]|] e]; simpl; rewrite e;
    reflexivity.
Qed.

(** Induction along the iterations of the loop. *)
Lemma buffer_ind (P : list N -> Prop) :
  (forall b, split1 LF b = None -> P b) ->
  (forall b line rest, split1 LF b = Some (line, rest) -> P rest -> P b) ->
  forall b : list N, P b.
Proof.
  intros Hexit Hiter b.
  induction b as [b IH] using (induction_ltof1 _ (@length char)).
  destruct (split1 LF b) as [[line rest]|] eqn:E.
  - apply (Hiter b line rest E). apply IH. unfold ltof.
    eapply split1_shorter; eassumption.
  - apply Hexit; assumption.
Qed.

Lemma collect_lines_acc b acc :
  process_complete_lines (fun line a => a ++ [line]) b acc =
  (fst (process_complete_lines (fun line a => a ++ [line]) b []),
   acc ++ snd (process_complete_lines (fun line a => a ++ [line]) b [])).
Proof.
  revert acc. induction b as [b E|b line rest E IH] using buffer_ind;
    intros acc.
  - rewrite !process_complete_lines_step, E. simpl.
    rewrite app_nil_r. reflexivity.
  - rewrite !(process_complete_lines_step _ b), E.
    rewrite IH. rewrite (IH ([] ++ _)). simpl.
    rewrite <- app_assoc. reflexivity.
Qed.

Lemma extract_lines_unfold b :
  extract_lines b =
  match split1 LF b with
  | Some (line, rest) =>
      (rstrip CR line :: fst (extract_lines rest), snd (extract_lines rest))
  | None => ([], b)
  end.
Proof.
  unfold extract_lines. rewrite process_complete_lines_step.
  destruct (split1 LF b) as [[line rest]|]; [|reflexivity].
  rewrite collect_lines_acc.
  destruct (process_complete_lines _ rest []) as [r ls]. reflexivity.
Qed.

(** The loop body sees exactly the extracted lines, in order. *)
Lemma process_complete_lines_fold {S : Type} (body : str -> S -> S) b st :
  process_complete_lines body b st =
  (snd (extract_lines b),
   fold_left (fun s line => body line s) (fst (extract_lines b)) st).
Proof.
  revert st. induction b as [b E|b line rest E IH] using buffer_ind;
    intros st; rewrite process_complete_lines_step, extract_lines_unfold, E.
  - reflexivity.
  - rewrite IH. reflexivity.
Qed.

Lemma extract_lines_app a b :
  extract_lines (a ++ b) =
  (fst (extract_lines a) ++ fst (extract_lines (snd (extract_lines a) ++ b)),
   snd (extract_lines (snd (extract_lines a) ++ b))).
Proof.
  induction a as [a E|a line rest E IH] using buffer_ind.
  - rewrite (extract_lines_unfold a), E. simpl.
    destruct (extract_lines (a ++ b)); reflexivity.
  - rewrite (extract_lines_unfold (a ++ b)), (split1_app _ _ b _ _ E).
    rewrite (extract_lines_unfold a), E. simpl. rewrite IH. reflexivity.
Qed.

Lemma extract_lines_no_line_feed b :
  contains LF b = false -> extract_lines b = ([], b).
Proof.
  intros H. apply split1_None in H. rewrite extract_lines_unfold, H.
  reflexivity.
Qed.

(** What the loop does to a buffer: the buffer is cut after each line feed,
    the pieces [raws] lose their trailing carriage returns and the text after
    the last line feed is left. *)
Lemma extract_lines_spec b :
  exists raws : list str,
    fst (extract_lines b) = map (rstrip CR) raws /\
    Forall (fun raw => contains LF raw = false) raws /\
    b = concat (map (fun raw => raw ++ [LF]) raws) ++ snd (extract_lines b) /\
    contains LF (snd (extract_lines b)) = false.
Proof.
  induction b as [b E|b line rest E IH] using buffer_ind;
    rewrite extract_lines_unfold, E; simpl.
  - exists []. simpl. repeat split; auto. apply split1_None; assumption.
  - destruct IH as (raws & Hls & Hraws & Hcat & Hrem).
    apply split1_Some in E as [-> Hline].
    exists (line :: raws). simpl. rewrite Hls. repeat split; auto.
    rewrite <- !app_assoc. simpl. rewrite <- Hcat. reflexivity.
Qed.

Lemma extract_lines_remainder b : contains LF (snd (extract_lines b)) = false.
Proof. destruct (extract_lines_spec b) as (_ & _ & _ & _ & H). exact H. Qed.

Lemma decode_chunks_from buffer chunks :
  contains LF buffer = false ->
  decode_chunks buffer chunks = decode_step buffer (concat chunks).
Proof.
  revert buffer. induction chunks as [|data more IH]; intros buffer Hb.
  - unfold decode_step. simpl. rewrite app_nil_r.
    symmetry. apply extract_lines_no_line_feed. assumption.
  - simpl. unfold decode_step at 2. rewrite app_assoc, extract_lines_app.
    fold (decode_step buffer data).
    destruct (decode_step buffer data) as [ls buffer'] eqn:E. simpl.
    rewrite IH.
    + unfold decode_step.
      destruct (extract_lines (buffer' ++ concat more)); reflexivity.
    + change buffer' with (snd (ls, buffer')). rewrite <- E.
      apply extract_lines_remainder.
Qed.


(** C7, as the code has it: an extracted line is the text before the next
    line feed with every trailing carriage return removed, however many
    there are. *)
Theorem extracted_line_drops_every_trailing_cr
    (t : str) (k : nat) (rest : str) :
  contains LF t = false ->
  last t LF <> CR ->
  decode_step [] (t ++ repeat CR k ++ LF :: rest) =
  (t :: fst (extract_lines rest), snd (extract_lines rest)).
Proof.
  intros Ht Hlast. unfold decode_step. simpl.
  rewrite extract_lines_unfold.
  rewrite app_assoc, split1_at.
  - rewrite (rstrip_trailing CR LF) by assumption. reflexivity.
  - rewrite contains_app, Ht. apply contains_false. intros Hin.
    apply repeat_spec in Hin. discriminate.
Qed.

Lemma extracted_line_drops_every_trailing_cr_witness :
  decode_step [] (lit "MSG" ++ repeat CR 2 ++ LF :: lit "ID") =
  (lit "MSG" :: fst (extract_lines (lit "ID")), snd (extract_lines (lit "ID"))).
Proof.
  apply (extracted_line_drops_every_trailing_cr (lit "MSG") 2 (lit "ID")).
  - reflexivity.
  - simpl. discriminate.
Defined.

(** C7 as stated fails: of a segment that ends in two carriage returns and a
    line feed the extracted line keeps neither carriage return. *)
Lemma one_cr_is_not_kept :
  fst (decode_step [] (lit "MSG" ++ [CR; CR; LF])) = [lit "MSG"] /\
  fst (decode_step [] (lit "MSG" ++ [CR; CR; LF])) <> [lit "MSG" ++ [CR]].
Proof. split; [reflexivity | discriminate]. Qed.

(** C10: after a receive has been decoded the retained buffer holds no line
    feed.  The text [buffer ++ data] is cut after each of its line feeds;
    every piece before a line feed is emitted in this step (without its
    trailing carriage returns), and what is kept is the text after the last
    line feed. *)
Theorem remainder_holds_no_line_feed (buffer data : str) :
  contains LF (snd (decode_step buffer data)) = false /\
  exists raws : list str,
    fst (decode_step buffer data) = map (rstrip CR) raws /\
    Forall (fun raw => contains LF raw = false) raws /\
    buffer ++ data =
      concat (map (fun raw => raw ++ [LF]) raws)
      ++ snd (decode_step buffer data).
Proof.
  unfold decode_step.
  destruct (extract_lines_spec (buffer ++ data)) as (raws & H1 & H2 & H3 & H4).
  split; [exact H4|]. exists raws. auto.
Qed.

(** ** Splitting and trimming *)

Lemma split_split1 sep s :
  split sep s =
  match split1 sep s with
  | Some (a, b) => a :: split sep b
  | None => [s]
  end.
Proof.
  induction s as [|c t IH]; simpl; [reflexivity|].
  destruct (N.eqb c sep); [reflexivity|].
  rewrite IH. destruct (split1 sep t) as [[a b]|]; reflexivity.
Qed.

Lemma split_at sep a b :
  contains sep a = false -> split sep (a ++ sep :: b) = a :: split sep b.
Proof. intros H. rewrite split_split1, split1_at by exact H. reflexivity. Qed.

(** A line with two fields or more is its first field, the separator and
    the rest. *)
Lemma split_first_field sep s :
  2 <= length (split sep s) ->
  exists t, s = nth 0 (split sep s) [] ++ sep :: t /\
            contains sep (nth 0 (split sep s) []) = false.
Proof.
  rewrite split_split1. destruct (split1 sep s) as [[a b]|] eqn:E.
  - intros _. apply split1_Some in E as [-> Ha]. exists b. simpl. auto.
  - simpl. lia.
Qed.

Lemma length_split sep s :
  length (split sep s) = S (count_occ N.eq_dec s sep).
Proof.
  induction s as [|c t IH]; simpl; [reflexivity|].
  destruct (N.eqb_spec c sep) as [->|Hne].
  - destruct (N.eq_dec sep sep); [|congruence]. simpl. rewrite IH. reflexivity.
  - destruct (N.eq_dec c sep); [congruence|].
    destruct (split sep t); simpl in *; [discriminate|]. exact IH.
Qed.

Lemma count_occ_dropwhile p sep s :
  p sep = false ->
  count_occ N.eq_dec (dropwhile p s) sep = count_occ N.eq_dec s sep.
Proof.
  intros Hp. induction s as [|c t IH]; simpl; [reflexivity|].
  destruct (p c) eqn:E; [|reflexivity].
  destruct (N.eq_dec c sep); [congruence|]. exact IH.
Qed.

Lemma count_occ_strip sep s :
  isspace sep = false ->
  count_occ N.eq_dec (strip s) sep = count_occ N.eq_dec s sep.
Proof.
  intros Hp. unfold strip, rstrip_by, lstrip_by.
  rewrite count_occ_rev, count_occ_dropwhile, count_occ_rev,
    count_occ_dropwhile by exact Hp.
  reflexivity.
Qed.

(** Trimming a line neither adds nor removes a field. *)
Lemma length_split_strip line :
  length (split COMMA (strip line)) = length (split COMMA line).
Proof. rewrite !length_split, count_occ_strip; reflexivity. Qed.

Lemma dropwhile_stops p v x w :
  p x = false -> exists u, dropwhile p (v ++ x :: w) = u ++ x :: w.
Proof.
  intros Hx. induction v as [|c v IH]; simpl.
  - rewrite Hx. exists []. reflexivity.
  - destruct (p c); [exact IH|]. exists (c :: v). reflexivity.
Qed.

Lemma rstrip_by_keeps p a x b :
  p x = false -> exists b', rstrip_by p (a ++ x :: b) = a ++ x :: b'.
Proof.
  intros Hx. unfold rstrip_by.
  rewrite rev_app_distr. simpl. rewrite <- app_assoc. simpl.
  destruct (dropwhile_stops p (rev b) x (rev a) Hx) as [u ->].
  exists (rev u). rewrite rev_app_distr. simpl.
  rewrite rev_involutive, <- app_assoc. reflexivity.
Qed.

(** A line that begins with the field [MSG] still does after trimming. *)
Lemma strip_keeps_MSG t :
  exists t', strip (lit "MSG" ++ COMMA :: t) = lit "MSG" ++ COMMA :: t'.
Proof.
  unfold strip, lstrip_by.
  replace (dropwhile isspace (lit "MSG" ++ COMMA :: t))
    with (lit "MSG" ++ COMMA :: t) by reflexivity.
  apply rstrip_by_keeps. reflexivity.
Qed.

Lemma first_field_after_strip line :
  2 <= length (split COMMA line) ->
  nth 0 (split COMMA line) [] = lit "MSG" ->
  nth 0 (split COMMA (strip line)) [] = lit "MSG".
Proof.
  intros Hlen H0. destruct (split_first_field COMMA line Hlen) as (t & E & _).
  rewrite H0 in E. rewrite E.
  destruct (strip_keeps_MSG t) as [t' ->].
  rewrite split_at by reflexivity. reflexivity.
Qed.

Lemma in_dropwhile p c s : In c (dropwhile p s) -> In c s.
Proof.
  induction s as [|x s IH]; simpl; [tauto|].
  destruct (p x); simpl; tauto.
Qed.



(** ** The record parser in closed form *)

Section ParserFacts.

Variable float : Type.
Variable py_float : str -> option float.

Lemma py_int_raises value e : py_int value = Raise e -> e = ValueError.
Proof.
  unfold py_int.
  destruct (dropwhile int_isspace value) as [|c t].
  - simpl. intros [= <-]. reflexivity.
  - destruct (if N.eqb c PLUS then _ else _) as [sign s2].
    destruct (scan_number s2) as [[v rest]|]; [|intros [= <-]; reflexivity].
    destruct (dropwhile int_isspace rest); [discriminate|].
    intros [= <-]. reflexivity.
Qed.

Lemma safe_int_returns value : safe_int value = Ok (int_field value).
Proof.
  unfold safe_int, int_field. destruct (truthy (strip value)); [|reflexivity].
  destruct (py_int value) as [n|e] eqn:E; simpl; [reflexivity|].
  apply py_int_raises in E. subst e. reflexivity.
Qed.

Lemma safe_float_returns value :
  safe_float py_float value = Ok (float_field py_float value).
Proof.
  unfold safe_float, float_field.
  destruct (truthy (strip value)); [|reflexivity].
  destruct (py_float value); reflexivity.
Qed.

Lemma field_or_none_returns fields i f :
  nth_error fields i = Some f -> field_or_none fields i = Ok (str_field f).
Proof.
  intros H. unfold field_or_none, index, str_field. rewrite H. simpl.
  destruct (truthy (strip f)); reflexivity.
Qed.

Lemma stripped_or_none_returns fields i f :
  nth_error fields i = Some f ->
  stripped_or_none fields i = Ok (trimmed_field f).
Proof.
  intros H. unfold stripped_or_none, index, trimmed_field. rewrite H. simpl.
  destruct (truthy (strip f)); reflexivity.
Qed.

Lemma index_returns fields i f :
  nth_error fields i = Some f -> index fields i = Ok f.
Proof. intros H. unfold index. rewrite H. reflexivity. Qed.

(** The [try] block always returns: its [except] branch is never taken. *)
Lemma parse_fields_returns line :
  parse_fields py_float line =
  Ok (let fields := split COMMA (strip line) in
      if (length fields <? 22)%nat
         || negb (str_eqb (nth 0 fields []) (lit "MSG"))
      then None else Some (record_of py_float fields)).
Proof.
  unfold parse_fields. cbv zeta.
  generalize (split COMMA (strip line)) as fields. intros fields.
  destruct (length fields <? 22)%nat eqn:Hlen; [reflexivity|].
  apply Nat.ltb_ge in Hlen.
  do 22 (destruct fields as [|? fields]; [simpl in Hlen; lia|]).
  clear Hlen.
  repeat match goal with
    | |- context [index ?fs ?i] => rewrite (index_returns fs i _ eq_refl)
    | |- context [field_or_none ?fs ?i] =>
        rewrite (field_or_none_returns fs i _ eq_refl)
    | |- context [stripped_or_none ?fs ?i] =>
        rewrite (stripped_or_none_returns fs i _ eq_refl)
    end.
  cbn [bind orb nth].
  destruct (negb (str_eqb _ _)); [reflexivity|].
  rewrite !safe_int_returns, !safe_float_returns. reflexivity.
Qed.

Lemma parse_sbs_message_closed line :
  parse_sbs_message py_float line =
  let fields := split COMMA (strip line) in
  if (length fields <? 22)%nat
     || negb (str_eqb (nth 0 fields []) (lit "MSG"))
  then None else Some (record_of py_float fields).
Proof.
  unfold parse_sbs_message. rewrite parse_fields_returns. cbv zeta.
  destruct (strip line) as [|c t] eqn:E; [reflexivity|].
  reflexivity.
Qed.

Lemma field_at_record_of fields i :
  i < 22 -> field_at (record_of py_float fields) i =
  Some (coerce_at py_float i (nth i fields [])).
Proof.
  intros Hi. do 22 (destruct i as [|i]; [reflexivity|]). lia.
Qed.

End ParserFacts.


(** ** The record parser: rejected and accepted lines *)

Section ParserClaims.

Variable float : Type.
Variable py_float : str -> option float.

Lemma accepted_fields line (m : ADSBMessage float) :
  parse_sbs_message py_float line = Some m ->
  22 <= length (split COMMA (strip line)) /\
  nth 0 (split COMMA (strip line)) [] = lit "MSG" /\
  m = record_of py_float (split COMMA (strip line)).
Proof.
  rewrite parse_sbs_message_closed. cbv zeta.
  destruct (length _ <? 22)%nat eqn:Hlen; [discriminate|].
  destruct (str_eqb _ _) eqn:H0; [|discriminate]. simpl.
  intros [= <-]. apply Nat.ltb_ge in Hlen. apply str_eqb_eq in H0. auto.
Qed.

Lemma accepts_fields line :
  22 <= length (split COMMA (strip line)) ->
  nth 0 (split COMMA (strip line)) [] = lit "MSG" ->
  parse_sbs_message py_float line =
  Some (record_of py_float (split COMMA (strip line))).
Proof.
  intros Hlen H0. rewrite parse_sbs_message_closed. cbv zeta.
  apply Nat.ltb_ge in Hlen. rewrite Hlen, H0. reflexivity.
Qed.

Lemma field_of_accepted line (m : ADSBMessage float) i f :
  parse_sbs_message py_float line = Some m ->
  i < 22 ->
  nth_error (split COMMA (strip line)) i = Some f ->
  field_at m i = Some (coerce_at py_float i f).
Proof.
  intros Hm Hi Hf. apply accepted_fields in Hm as (_ & _ & ->).
  rewrite field_at_record_of by exact Hi.
  rewrite (nth_error_nth _ _ _ Hf). reflexivity.
Qed.

(** C2, as the code has it: a line whose text, once trimmed, does not begin
    with [MSG,], or which has fewer than 22 comma-separated fields, gives no
    record, and the [try] block returns without raising. *)
Theorem rejected_lines_give_no_record (line : str) :
  startswith (lit "MSG,") (strip line) = false
  \/ length (split COMMA line) < 22 ->
  parse_sbs_message py_float line = None /\
  parse_fields py_float line = Ok None.
Proof.
  intros H.
  assert (Hrej : ((length (split COMMA (strip line)) <? 22)%nat
                  || negb (str_eqb (nth 0 (split COMMA (strip line)) [])
                             (lit "MSG"))) = true).
  { destruct (length (split COMMA (strip line)) <? 22)%nat eqn:Hlen;
      [reflexivity|].
    apply Nat.ltb_ge in Hlen. simpl.
    destruct H as [H|H]; [|rewrite length_split_strip in Hlen; lia].
    destruct (str_eqb _ _) eqn:H0; [|reflexivity]. apply str_eqb_eq in H0.
    destruct (split_first_field COMMA (strip line)) as (t & E & _); [lia|].
    rewrite H0 in E. rewrite E in H.
    simpl in H. discriminate. }
  rewrite parse_sbs_message_closed, parse_fields_returns. cbv zeta.
  rewrite Hrej. auto.
Qed.

(** C3: in an accepted line a field whose text is empty or blank is absent
    from the record, at every position from 1 to 21 and whatever the type of
    the field. *)
Theorem blank_field_is_absent (line : str) (m : ADSBMessage float)
    (i : nat) (f : str) :
  parse_sbs_message py_float line = Some m ->
  1 <= i <= 21 ->
  nth_error (split COMMA (strip line)) i = Some f ->
  strip f = [] ->
  exists v, field_at m i = Some v /\ is_absent v = true.
Proof.
  intros Hm Hi Hf Hblank.
  rewrite (field_of_accepted line m i f Hm) by (lia || assumption).
  eexists. split; [reflexivity|].
  destruct Hi as [Hlo Hhi].
  destruct i as [|i]; [lia|].
  do 21 (destruct i as [|i];
    [ cbn [coerce_at];
      unfold int_field, float_field, str_field, trimmed_field, safe_bool;
      rewrite Hblank; reflexivity | ]).
  lia.
Qed.

(** C5, as the code has it: the callsign is absent when its text is blank and
    the trimmed text otherwise; every other string field (positions 4, 6 to
    9 and 17) is absent when its text is blank and otherwise the text as it
    stands between the commas, untrimmed. *)
Theorem string_fields_of_accepted_line (line : str) (m : ADSBMessage float)
    (i : nat) (f : str) :
  parse_sbs_message py_float line = Some m ->
  In i [4; 6; 7; 8; 9; 10; 17] ->
  nth_error (split COMMA (strip line)) i = Some f ->
  field_at m i =
  Some (VStr (if str_eqb (strip f) [] then None
              else if Nat.eqb i 10 then Some (strip f) else Some f)).
Proof.
  intros Hm Hi Hf.
  assert (Hlt : i < 22) by (simpl in Hi; lia).
  rewrite (field_of_accepted line m i f Hm Hlt Hf). f_equal.
  assert (Ht : truthy (strip f) = negb (str_eqb (strip f) [])).
  { destruct (strip f); reflexivity. }
  simpl in Hi.
  repeat (destruct Hi as [<-|Hi];
    [ cbn [coerce_at Nat.eqb]; unfold str_field, trimmed_field; rewrite Ht;
      destruct (str_eqb (strip f) []); reflexivity | ]).
  contradiction.
Qed.

(** C6, as the code has it: a tri-state field is true exactly when its
    trimmed text is [1], false exactly when its trimmed text is [0], and
    absent otherwise. *)
Theorem boolean_fields_of_accepted_line (line : str) (m : ADSBMessage float)
    (i : nat) (f : str) :
  parse_sbs_message py_float line = Some m ->
  In i [18; 19; 20; 21] ->
  nth_error (split COMMA (strip line)) i = Some f ->
  exists b, field_at m i = Some (VBool b) /\
    (b = Some true <-> strip f = lit "1") /\
    (b = Some false <-> strip f = lit "0") /\
    (b = None <-> strip f <> lit "1" /\ strip f <> lit "0").
Proof.
  intros Hm Hi Hf.
  assert (Hlt : i < 22) by (simpl in Hi; lia).
  rewrite (field_of_accepted line m i f Hm Hlt Hf).
  exists (safe_bool f). split.
  - simpl in Hi.
    repeat (destruct Hi as [<-|Hi]; [reflexivity|]). contradiction.
  - unfold safe_bool.
    destruct (str_eqb (strip f) (lit "1")) eqn:E1.
    + apply str_eqb_eq in E1. rewrite E1.
      repeat split; intros; try congruence; try discriminate.
      destruct H; congruence.
    + destruct (str_eqb (strip f) (lit "0")) eqn:E0.
      * apply str_eqb_eq in E0. rewrite E0.
        repeat split; intros; try congruence; try discriminate.
        destruct H; congruence.
      * assert (N1 : strip f <> lit "1")
          by (intros E; apply str_eqb_eq in E; congruence).
        assert (N0 : strip f <> lit "0")
          by (intros E; apply str_eqb_eq in E; congruence).
        repeat split; intros; try congruence; try discriminate; auto.
Qed.

(** C9: a line whose first field is [MSG] and which has 22 fields or more
    gives a record, and the record depends on the first 22 fields only:
    every line with the same fields at positions 0 to 21 gives the same
    record, whatever follows them. *)
Theorem extra_fields_are_ignored (line : str) :
  nth 0 (split COMMA line) [] = lit "MSG" ->
  22 <= length (split COMMA line) ->
  exists m : ADSBMessage float,
    parse_sbs_message py_float line = Some m /\
    m = record_of py_float (firstn 22 (split COMMA (strip line))) /\
    forall line',
      firstn 22 (split COMMA (strip line')) =
      firstn 22 (split COMMA (strip line)) ->
      parse_sbs_message py_float line' = Some m.
Proof.
  intros H0 Hlen.
  assert (Hpre : forall fields : list str,
             record_of py_float (firstn 22 fields) = record_of py_float fields).
  { intros fields. unfold record_of. cbv zeta.
    do 22 (destruct fields as [|? fields]; [reflexivity|]). reflexivity. }
  assert (Hlen' : 22 <= length (split COMMA (strip line)))
    by (rewrite length_split_strip; exact Hlen).
  assert (H0' : nth 0 (split COMMA (strip line)) [] = lit "MSG")
    by (apply first_field_after_strip; [lia|exact H0]).
  exists (record_of py_float (split COMMA (strip line))).
  split; [apply accepts_fields; assumption|].
  split; [symmetry; apply Hpre|].
  intros line' Hsame.
  rewrite <- (Hpre (split COMMA (strip line))), <- Hsame, Hpre.
  apply accepts_fields.
  - apply (f_equal (@length str)) in Hsame. rewrite !length_firstn in Hsame.
    lia.
  - apply (f_equal (fun l => nth 0 l [])) in Hsame.
    destruct (split COMMA (strip line')) as [|a l'];
      destruct (split COMMA (strip line)) as [|b l]; simpl in *; congruence.
Qed.

End ParserClaims.

(** ** The built-in [int] on field texts *)












Section IntegerFields.

Variable float : Type.
Variable py_float : str -> option float.


End IntegerFields.

(** ** Worked lines, witnesses and counterexamples *)

Example sample_line_parses :
  parse_sbs_message float_unused sample_line = Some sample_record.
Proof. reflexivity. Qed.

Example two_chunks_two_lines :
  decode_chunks [] [lit "MSG,3,1,1,A" ++ [LF]; lit "MSG,3,1,1,B" ++ [LF]] =
  ([lit "MSG,3,1,1,A"; lit "MSG,3,1,1,B"], []).
Proof. reflexivity. Qed.

Lemma rejected_lines_give_no_record_witness :
  parse_sbs_message float_unused
    (lit "SEL,3,1,1,4840D6,1,2023/01/01,12:00:00,2023/01/01,12:00:00,,38000,,,,,,,,,,0")
  = None /\
  parse_fields float_unused
    (lit "SEL,3,1,1,4840D6,1,2023/01/01,12:00:00,2023/01/01,12:00:00,,38000,,,,,,,,,,0")
  = Ok None.
Proof.
  apply (rejected_lines_give_no_record unit float_unused).
  left. reflexivity.
Defined.

(** C2 as stated fails: a line that begins with a blank does not start with
    [MSG,], yet with 22 fields it is accepted, because the parser trims the
    line before it splits it. *)
Lemma line_with_leading_blank_is_accepted :
  startswith (lit "MSG,") (lit " MSG,,,,,,,,,,,,,,,,,,,,,") = false /\
  forall (float : Type) (py_float : str -> option float),
    parse_sbs_message py_float (lit " MSG,,,,,,,,,,,,,,,,,,,,,") =
    Some (mkADSBMessage (lit "MSG") None None None None None None None None
            None None None None None None None None None None None None None).
Proof. split; [reflexivity | intros; reflexivity]. Qed.

Lemma blank_field_is_absent_witness :
  exists v, field_at sample_record 10 = Some v /\ is_absent v = true.
Proof.
  apply (blank_field_is_absent unit float_unused sample_line sample_record
           10 []).
  - reflexivity.
  - lia.
  - reflexivity.
  - reflexivity.
Defined.


Example negative_altitude_parses :
  option_map altitude
    (parse_sbs_message float_unused
       (lit "MSG,3,1,1,4840D6,1,2023/01/01,12:00:00,2023/01/01,12:00:00,,-1200,,,,,,,,,,0"))
  = Some (Some (-1200)%Z).
Proof. reflexivity. Qed.

Lemma string_fields_of_accepted_line_witness :
  field_at sample_record 4 =
  Some (VStr (if str_eqb (strip (lit "4840D6")) [] then None
              else if Nat.eqb 4 10 then Some (strip (lit "4840D6"))
                   else Some (lit "4840D6"))).
Proof.
  apply (string_fields_of_accepted_line unit float_unused sample_line
           sample_record 4 (lit "4840D6")).
  - reflexivity.
  - simpl. lia.
  - reflexivity.
Defined.

(** C5 as stated fails: the ICAO address of this line stands between blanks
    and the record holds it with the blanks, neither absent nor trimmed. *)
Lemma hex_ident_is_not_trimmed :
  nth_error
    (split COMMA (strip (lit
       "MSG,3,1,1, 4840D6 ,1,2023/01/01,12:00:00,2023/01/01,12:00:00,,38000,,,,,,,,,,0")))
    4 = Some (lit " 4840D6 ") /\
  strip (lit " 4840D6 ") = lit "4840D6" /\
  forall (float : Type) (py_float : str -> option float),
    option_map hex_ident
      (parse_sbs_message py_float (lit
         "MSG,3,1,1, 4840D6 ,1,2023/01/01,12:00:00,2023/01/01,12:00:00,,38000,,,,,,,,,,0"))
    = Some (Some (lit " 4840D6 ")).
Proof. repeat split. Qed.

Lemma boolean_fields_of_accepted_line_witness :
  exists b, field_at sample_record 21 = Some (VBool b) /\
    (b = Some true <-> strip (lit "0") = lit "1") /\
    (b = Some false <-> strip (lit "0") = lit "0") /\
    (b = None <-> strip (lit "0") <> lit "1" /\ strip (lit "0") <> lit "0").
Proof.
  apply (boolean_fields_of_accepted_line unit float_unused sample_line
           sample_record 21 (lit "0")).
  - reflexivity.
  - simpl. lia.
  - reflexivity.
Defined.

(** C6 as stated fails: the alert field of this line is a blank followed by
    [1], which is not the literal [1], and the record holds true. *)
Lemma padded_one_is_true :
  nth_error
    (split COMMA (strip (lit
       "MSG,3,1,1,4840D6,1,2023/01/01,12:00:00,2023/01/01,12:00:00,,38000,,,,,,, 1,,,0")))
    18 = Some (lit " 1") /\
  lit " 1" <> lit "1" /\
  forall (float : Type) (py_float : str -> option float),
    option_map alert
      (parse_sbs_message py_float (lit
         "MSG,3,1,1,4840D6,1,2023/01/01,12:00:00,2023/01/01,12:00:00,,38000,,,,,,, 1,,,0"))
    = Some (Some true).
Proof. repeat split. discriminate. Qed.

Lemma extra_fields_are_ignored_witness :
  exists m : ADSBMessage unit,
    parse_sbs_message float_unused
      (sample_line ++ lit ",extra,fields") = Some m /\
    m = record_of float_unused
          (firstn 22
             (split COMMA (strip (sample_line ++ lit ",extra,fields")))) /\
    forall line',
      firstn 22 (split COMMA (strip line')) =
      firstn 22 (split COMMA (strip (sample_line ++ lit ",extra,fields"))) ->
      parse_sbs_message float_unused line' = Some m.
Proof.
  apply (extra_fields_are_ignored unit float_unused
           (sample_line ++ lit ",extra,fields")).
  - reflexivity.
  - vm_compute. lia.
Defined.

Example extra_fields_same_record :
  parse_sbs_message float_unused (sample_line ++ lit ",extra,fields") =
  Some sample_record.
Proof. reflexivity. Qed.

(** ** The receive loops: what ends a connection *)

Section ReceiveLoops.

Variable float : Type.
Variable py_float : str -> option float.


Lemma p_handle_line_phase line c : p_phase (p_handle_line line c) = p_phase c.
Proof. unfold p_handle_line. destruct (truthy (strip line)); reflexivity. Qed.

Lemma fold_left_preserves {S A B : Type} (f : S -> A -> S) (g : S -> B) :
  (forall s a, g (f s a) = g s) ->
  forall l s, g (fold_left f l s) = g s.
Proof.
  intros Hf l. induction l as [|a l IH]; intros s; simpl; [reflexivity|].
  rewrite IH. apply Hf.
Qed.


Lemma p_lines_keep_phase b c :
  p_phase (snd (process_complete_lines p_handle_line b c)) = p_phase c.
Proof.
  rewrite process_complete_lines_fold. simpl.
  apply (fold_left_preserves (fun s line => p_handle_line line s)).
  intros s a. apply p_handle_line_phase.
Qed.

Lemma run_step_timeout (c : ADSBClient float) :
  run_step py_float c RecvTimeout = c.
Proof. unfold run_step. destruct (phase c); reflexivity. Qed.



Lemma persistent_step_timeout end_time c i :
  p_phase c = CONNECTED ->
  received i = RecvTimeout ->
  persistent_step end_time c i = p_set_phase DISCONNECTED c.
Proof.
  intros Hc Hr. unfold persistent_step, persistent_iteration.
  rewrite Hc, Hr. destruct (_ && _); reflexivity.
Qed.


End ReceiveLoops.



(** * Further properties *)

(** ** Frame decoding: what the lines look like *)

Lemma dropwhile_head_false p s :
  match dropwhile p s with [] => True | x :: _ => p x = false end.
Proof.
  induction s as [|c t IH]; simpl; [exact I|].
  destruct (p c) eqn:E; [exact IH | exact E].
Qed.

Lemma in_rstrip_by p c s : In c (rstrip_by p s) -> In c s.
Proof.
  unfold rstrip_by. intros H. apply in_rev in H. apply in_dropwhile in H.
  apply in_rev in H. exact H.
Qed.

Lemma rstrip_by_last p s d : p d = false -> p (last (rstrip_by p s) d) = false.
Proof.
  intros Hd. unfold rstrip_by.
  pose proof (dropwhile_head_false p (rev s)) as H.
  destruct (dropwhile p (rev s)) as [|x u]; [exact Hd|].
  simpl. rewrite last_last. exact H.
Qed.

Lemma rstrip_clean line :
  contains LF line = false ->
  contains LF (rstrip CR line) = false /\ last (rstrip CR line) LF <> CR.
Proof.
  intros H. split.
  - apply contains_false. intros Hin. apply in_rstrip_by in Hin.
    apply contains_false in H. contradiction.
  - pose proof (rstrip_by_last (N.eqb CR) line LF eq_refl) as Hl.
    apply N.eqb_neq in Hl. unfold rstrip. congruence.
Qed.

Lemma extract_lines_first_line t k rest :
  contains LF t = false ->
  last t LF <> CR ->
  extract_lines (t ++ repeat CR k ++ LF :: rest) =
  (t :: fst (extract_lines rest), snd (extract_lines rest)).
Proof.
  intros Ht Hlast. rewrite extract_lines_unfold, app_assoc, split1_at.
  - rewrite (rstrip_trailing CR LF) by assumption. reflexivity.
  - rewrite contains_app, Ht. apply contains_false. intros Hin.
    apply repeat_spec in Hin. discriminate.
Qed.

Lemma contains_concat c ls :
  Forall (fun s => contains c s = false) ls -> contains c (concat ls) = false.
Proof.
  induction 1 as [|s ls Hs _ IH]; simpl; [reflexivity|].
  rewrite contains_app, Hs, IH. reflexivity.
Qed.

(** X1: no line handed to the loop body holds a line feed or ends in a
    carriage return, whatever was in the buffer and in the data. *)
Theorem extracted_lines_are_clean (buffer data : str) :
  Forall (fun line => contains LF line = false /\ last line LF <> CR)
    (fst (decode_step buffer data)).
Proof.
  unfold decode_step.
  destruct (extract_lines_spec (buffer ++ data)) as (raws & -> & Hraws & _).
  induction Hraws as [|raw raws Hraw _ IH]; simpl; constructor.
  - apply rstrip_clean; assumption.
  - exact IH.
Qed.

(** X2: data without a line feed is never handed on: over any number of
    receives no line is extracted and the buffer is all the text received
    so far; nothing bounds its length. *)
Theorem unterminated_text_accumulates (chunks : list str) :
  Forall (fun data => contains LF data = false) chunks ->
  decode_chunks [] chunks = ([], concat chunks) /\
  length (snd (decode_chunks [] chunks)) =
  list_sum (map (@length char) chunks).
Proof.
  intros H. assert (E : decode_chunks [] chunks = ([], concat chunks)).
  { rewrite decode_chunks_from by reflexivity.
    unfold decode_step. simpl. apply extract_lines_no_line_feed.
    apply contains_concat; assumption. }
  split; [exact E|]. rewrite E. simpl. clear.
  induction chunks as [|d ds IH]; simpl; [reflexivity|].
  rewrite length_app, IH. reflexivity.
Qed.

Lemma unterminated_text_accumulates_witness :
  decode_chunks [] [lit "MSG,3"; lit ",1,1"] =
    ([], concat [lit "MSG,3"; lit ",1,1"]) /\
  length (snd (decode_chunks [] [lit "MSG,3"; lit ",1,1"])) =
  list_sum (map (@length char) [lit "MSG,3"; lit ",1,1"]).
Proof.
  apply (unterminated_text_accumulates [lit "MSG,3"; lit ",1,1"]).
  repeat constructor.
Defined.

(** X3: decoding undoes line termination.  Lines that hold no line feed
    and do not end in a carriage return, each followed by any number of
    carriage returns and a line feed, then an unterminated tail, come back
    as those lines, with the tail left in the buffer. *)
Theorem terminated_lines_round_trip (lines : list (str * nat)) (tail : str) :
  Forall (fun '(line, _) => contains LF line = false /\ last line LF <> CR)
    lines ->
  contains LF tail = false ->
  decode_step [] (terminate lines ++ tail) = (map fst lines, tail).
Proof.
  intros Hlines Htail. unfold decode_step, terminate. simpl.
  induction Hlines as [|[line k] lines [Hl Hc] _ IH]; simpl.
  - apply extract_lines_no_line_feed. exact Htail.
  - rewrite <- !app_assoc. simpl.
    rewrite extract_lines_first_line by assumption. rewrite IH. reflexivity.
Qed.

Lemma terminated_lines_round_trip_witness :
  decode_step [] (terminate [(lit "MSG,3", 1); (lit "ID,1", 0)] ++ lit "MS") =
  (map fst [(lit "MSG,3", 1); (lit "ID,1", 0)], lit "MS").
Proof.
  apply (terminated_lines_round_trip
           [(lit "MSG,3", 1); (lit "ID,1", 0)] (lit "MS")).
  - repeat constructor; discriminate.
  - reflexivity.
Defined.

(** ** Trimming *)

Lemma dropwhile_split p s :
  exists l, s = l ++ dropwhile p s /\ forallb p l = true.
Proof.
  induction s as [|c t (l & E & Hl)]; simpl.
  - exists []. auto.
  - destruct (p c) eqn:Hc.
    + exists (c :: l). simpl. rewrite Hc, Hl, <- E. auto.
    + exists []. auto.
Qed.

Lemma forallb_rev p (l : str) : forallb p l = true -> forallb p (rev l) = true.
Proof.
  rewrite !forallb_forall. intros H x Hx. apply H, in_rev, Hx.
Qed.

Lemma rstrip_by_split p s :
  exists r, s = rstrip_by p s ++ r /\ forallb p r = true.
Proof.
  unfold rstrip_by. destruct (dropwhile_split p (rev s)) as (l & E & Hl).
  exists (rev l). split; [|apply forallb_rev; exact Hl].
  rewrite <- rev_app_distr, <- E, rev_involutive. reflexivity.
Qed.

Lemma strip_core l m r :
  forallb isspace l = true -> forallb isspace r = true -> trimmed m ->
  strip (l ++ m ++ r) = m.
Proof.
  intros Hl Hr Hm. unfold strip, lstrip_by.
  rewrite dropwhile_app_all by exact Hl.
  destruct m as [|x m'].
  - simpl. rewrite (dropwhile_all _ _ Hr). reflexivity.
  - destruct Hm as [Hx Hlast].
    replace (dropwhile isspace ((x :: m') ++ r)) with ((x :: m') ++ r)
      by (simpl; rewrite Hx; reflexivity).
    unfold rstrip_by. rewrite rev_app_distr.
    rewrite dropwhile_app_all by (apply forallb_rev; exact Hr).
    rewrite dropwhile_head; [apply rev_involutive|].
    destruct (rev (x :: m')) as [|y u] eqn:E; [exact I|].
    apply (f_equal (@rev _)) in E. rewrite rev_involutive in E. simpl in E.
    rewrite E, last_last in Hlast. exact Hlast.
Qed.

Lemma strip_decompose s :
  exists l r, s = l ++ strip s ++ r /\
    forallb isspace l = true /\ forallb isspace r = true /\
    trimmed (strip s).
Proof.
  unfold strip, lstrip_by.
  destruct (dropwhile_split isspace s) as (l & El & Hl).
  destruct (rstrip_by_split isspace (dropwhile isspace s)) as (r & Er & Hr).
  exists l, r. split; [rewrite <- Er; exact El|].
  split; [exact Hl|]. split; [exact Hr|].
  pose proof (dropwhile_head_false isspace s) as Hhead.
  pose proof (rstrip_by_last isspace (dropwhile isspace s)) as Hlast.
  destruct (rstrip_by isspace (dropwhile isspace s)) as [|y m'] eqn:E;
    [exact I|].
  rewrite Er in Hhead. simpl in Hhead. split; [exact Hhead|].
  apply Hlast. exact Hhead.
Qed.

Lemma strip_trimmed s : trimmed (strip s).
Proof. destruct (strip_decompose s) as (_ & _ & _ & _ & _ & H). exact H. Qed.

Lemma strip_idempotent s : strip (strip s) = strip s.
Proof.
  rewrite <- (app_nil_r (strip s)) at 1.
  apply (strip_core [] (strip s) []); auto using strip_trimmed.
Qed.

Lemma strip_padded a s b :
  forallb isspace a = true -> forallb isspace b = true ->
  strip (a ++ s ++ b) = strip s.
Proof.
  intros Ha Hb. destruct (strip_decompose s) as (l & r & E & Hl & Hr & Ht).
  rewrite E at 1.
  replace (a ++ (l ++ strip s ++ r) ++ b)
    with ((a ++ l) ++ strip s ++ (r ++ b))
    by (rewrite <- !app_assoc; reflexivity).
  apply strip_core; [| |exact Ht]; rewrite forallb_app.
  - rewrite Ha, Hl. reflexivity.
  - rewrite Hr, Hb. reflexivity.
Qed.

Lemma in_strip c s : In c (strip s) -> In c s.
Proof.
  unfold strip, lstrip_by. intros H. apply in_rstrip_by in H.
  apply in_dropwhile in H. exact H.
Qed.

(** ** The record parser: further properties *)

Section ParserExtras.

Variable float : Type.
Variable py_float : str -> option float.

(** X4: whitespace around a line does not matter to the parser: blanks,
    tabs or carriage returns before and after the line give the same
    result as the line itself, record or none. *)
Theorem surrounding_whitespace_is_ignored (a line b : str) :
  forallb isspace a = true ->
  forallb isspace b = true ->
  parse_sbs_message py_float (a ++ line ++ b) =
  parse_sbs_message py_float line.
Proof.
  intros Ha Hb. rewrite !parse_sbs_message_closed. cbv zeta.
  rewrite strip_padded by assumption. reflexivity.
Qed.

(** X5: every record the parser returns has the message type [MSG]. *)
Theorem message_type_is_MSG (line : str) (m : ADSBMessage float) :
  parse_sbs_message py_float line = Some m -> message_type m = lit "MSG".
Proof.
  intros H. apply accepted_fields in H as (_ & H0 & ->). exact H0.
Qed.

(** X6: for every line the [try] block of the parser returns: after the
    check of the field count none of the 22 index accesses is out of range,
    and the coercions catch what [int] and [float] raise, so the [except]
    branch is never taken. *)
Theorem try_block_never_raises (line : str) :
  exists r : option (ADSBMessage float),
    parse_fields py_float line = Ok r /\
    parse_sbs_message py_float line = r.
Proof.
  rewrite parse_fields_returns, parse_sbs_message_closed.
  eexists. split; reflexivity.
Qed.

End ParserExtras.

Lemma surrounding_whitespace_is_ignored_witness :
  parse_sbs_message float_unused ([32; 9]%N ++ sample_line ++ [CR; 32]%N) =
  parse_sbs_message float_unused sample_line.
Proof.
  apply (surrounding_whitespace_is_ignored unit float_unused
           [32; 9]%N sample_line [CR; 32]%N); reflexivity.
Defined.

Lemma message_type_is_MSG_witness : message_type sample_record = lit "MSG".
Proof.
  apply (message_type_is_MSG unit float_unused sample_line sample_record).
  reflexivity.
Defined.

(** ** Integers between blanks *)







(** ** The float fields *)

Section FloatFields.

Variable float : Type.
Variable py_float : str -> option float.

(** X16: in an accepted line the latitude and the longitude never make the
    parser fail: the field is absent when its text is blank, and otherwise
    it is what the built-in [float] makes of the text, absent when [float]
    raises. *)
Theorem float_field_of_accepted_line (line : str) (i : nat) (f : str) :
  22 <= length (split COMMA (strip line)) ->
  nth 0 (split COMMA (strip line)) [] = lit "MSG" ->
  In i [14; 15] ->
  nth_error (split COMMA (strip line)) i = Some f ->
  exists m : ADSBMessage float,
    parse_sbs_message py_float line = Some m /\
    field_at m i =
    Some (VFloat (if str_eqb (strip f) [] then None else py_float f)).
Proof.
  intros Hlen H0 Hi Hf.
  pose proof (accepts_fields float py_float line Hlen H0) as Hm.
  eexists. split; [exact Hm|].
  assert (Hlt : i < 22) by (simpl in Hi; lia).
  rewrite (field_of_accepted float py_float line _ i f Hm Hlt Hf).
  assert (Hfield : coerce_at py_float i f = VFloat (float_field py_float f)).
  { simpl in Hi.
    repeat (destruct Hi as [<-|Hi]; [reflexivity|]). contradiction. }
  rewrite Hfield. unfold float_field.
  destruct (strip f); reflexivity.
Qed.

End FloatFields.

Lemma float_field_of_accepted_line_witness :
  exists m : ADSBMessage unit,
    parse_sbs_message float_unused
      (lit "MSG,3,1,1,4840D6,1,2023/01/01,12:00:00,2023/01/01,12:00:00,,38000,,,north,,,,,,,0")
    = Some m /\
    field_at m 14 =
    Some (VFloat (if str_eqb (strip (lit "north")) [] then None
                  else float_unused (lit "north"))).
Proof.
  apply (float_field_of_accepted_line unit float_unused
           (lit "MSG,3,1,1,4840D6,1,2023/01/01,12:00:00,2023/01/01,12:00:00,,38000,,,north,,,,,,,0")
           14 (lit "north")).
  - vm_compute. lia.
  - reflexivity.
  - simpl. lia.
  - reflexivity.
Defined.

(** ** [ADSBClient.run] as a function of the text received *)

Section RunExtras.

Variable float : Type.
Variable py_float : str -> option float.

Lemma records_of_lines_app (a b : list str) :
  records_of_lines py_float (a ++ b) =
  records_of_lines py_float a ++ records_of_lines py_float b.
Proof. unfold records_of_lines. apply flat_map_app. Qed.

(** The test [if line.strip()] before the parser changes nothing: the
    parser gives no record for a blank line. *)
Lemma handle_line_parse line (c : ADSBClient float) :
  handle_line py_float line c =
  match parse_sbs_message py_float line with
  | Some message =>
      mkADSBClient (phase c) (buffer c) (S (message_count c))
        (rows c ++ [message])
  | None => c
  end.
Proof.
  unfold handle_line. destruct (truthy (strip line)) eqn:T; [reflexivity|].
  unfold parse_sbs_message. rewrite T. reflexivity.
Qed.

Lemma handle_lines (ls : list str) (c : ADSBClient float) :
  fold_left (fun s line => handle_line py_float line s) ls c =
  mkADSBClient (phase c) (buffer c)
    (message_count c + length (records_of_lines py_float ls))
    (rows c ++ records_of_lines py_float ls).
Proof.
  revert c. induction ls as [|l ls IH]; intros c; simpl.
  - destruct c; simpl. rewrite Nat.add_0_r, app_nil_r. reflexivity.
  - rewrite IH, handle_line_parse.
    destruct (parse_sbs_message py_float l); simpl.
    + rewrite <- app_assoc. f_equal. lia.
    + reflexivity.
Qed.

Lemma run_step_data (c : ADSBClient float) x data :
  phase c = CONNECTED ->
  run_step py_float c (RecvData (x :: data)) =
  let ls := fst (extract_lines (buffer c ++ x :: data)) in
  mkADSBClient CONNECTED (snd (extract_lines (buffer c ++ x :: data)))
    (message_count c + length (records_of_lines py_float ls))
    (rows c ++ records_of_lines py_float ls).
Proof.
  intros Hc. unfold run_step, run_iteration. rewrite Hc. simpl.
  rewrite process_complete_lines_fold, handle_lines. simpl.
  rewrite Hc. reflexivity.
Qed.

Lemma run_step_ended (c : ADSBClient float) rs :
  phase c <> CONNECTED -> fold_left (run_step py_float) rs c = c.
Proof.
  intros Hc. induction rs as [|r rs IH]; simpl; [reflexivity|].
  replace (run_step py_float c r) with c; [exact IH|].
  unfold run_step. destruct (phase c); congruence.
Qed.

Lemma run_from (c : ADSBClient float) rs :
  phase c = CONNECTED ->
  contains LF (buffer c) = false ->
  fold_left (run_step py_float) rs c =
  let text := buffer c ++ text_before_end rs in
  let records := records_of_lines py_float (fst (extract_lines text)) in
  mkADSBClient (if connection_ends rs then TERMINATED else CONNECTED)
    (snd (extract_lines text))
    (message_count c + length records) (rows c ++ records).
Proof.
  revert c. induction rs as [|r rs IH]; intros c Hc Hb; cbv zeta.
  - simpl. rewrite app_nil_r, (extract_lines_no_line_feed _ Hb). simpl.
    destruct c; simpl in *. subst.
    rewrite Nat.add_0_r, app_nil_r. reflexivity.
  - assert (Hend : forall r', run_step py_float c r' = disconnect c ->
               text_before_end (r' :: rs) = [] ->
               connection_ends (r' :: rs) = true ->
               fold_left (run_step py_float) (r' :: rs) c =
               mkADSBClient
                 (if connection_ends (r' :: rs) then TERMINATED else CONNECTED)
                 (snd (extract_lines (buffer c ++ text_before_end (r' :: rs))))
                 (message_count c
                  + length (records_of_lines py_float
                              (fst (extract_lines
                                      (buffer c ++ text_before_end (r' :: rs))))))
                 (rows c
                  ++ records_of_lines py_float
                       (fst (extract_lines
                               (buffer c ++ text_before_end (r' :: rs)))))).
    { intros r' Hstep Htext Hends. cbn [fold_left]. rewrite Hstep.
      rewrite run_step_ended by (simpl; discriminate).
      rewrite Htext, Hends, app_nil_r, (extract_lines_no_line_feed _ Hb).
      simpl. rewrite Nat.add_0_r, app_nil_r. reflexivity. }
    destruct r as [[|x data]| | |].
    + apply Hend; [unfold run_step; rewrite Hc|..]; reflexivity.
    + cbn [fold_left]. rewrite run_step_data by exact Hc. cbv zeta.
      rewrite IH; [|reflexivity|apply extract_lines_remainder].
      cbn [phase buffer message_count rows text_before_end connection_ends].
      cbv zeta.
      rewrite (app_assoc (buffer c)), (extract_lines_app (buffer c ++ x :: data)).
      cbn [fst snd]. rewrite records_of_lines_app, length_app.
      rewrite <- app_assoc, Nat.add_assoc. reflexivity.
    + cbn [fold_left]. rewrite run_step_timeout. rewrite IH by assumption.
      reflexivity.
    + apply Hend; [unfold run_step; rewrite Hc|..]; reflexivity.
    + apply Hend; [unfold run_step; rewrite Hc|..]; reflexivity.
Qed.

(** X8: what [ADSBClient.run] has done after any sequence of receives
    depends only on the text received before the connection ended: the rows
    written are the records of the complete lines of that text that parse,
    in order; the counter is their number; the buffer is the unterminated
    tail.  Blank lines, lines of other message types and timeouts leave no
    trace. *)
Theorem run_writes_the_records_of_the_text (rs : list recv_result) :
  let text := text_before_end rs in
  let records := records_of_lines py_float (fst (extract_lines text)) in
  run py_float rs =
  mkADSBClient (if connection_ends rs then TERMINATED else CONNECTED)
    (snd (extract_lines text)) (length records) records.
Proof. unfold run. rewrite run_from by reflexivity. reflexivity. Qed.



End RunExtras.


(** ** [TestADSBClient.run_test]: the counters *)

Section TestClientExtras.

Variable float : Type.
Variable py_float : str -> option float.

Lemma test_handle_line_counters line c :
  test_counters_agree c ->
  test_counters_agree (test_handle_line py_float line c).
Proof.
  intros [Hm Hp]. unfold test_handle_line.
  destruct (truthy (strip line)); [|split; assumption].
  destruct (parse_sbs_message py_float line) as [m|]; [|split; assumption].
  unfold test_counters_agree. simpl.
  rewrite length_app, filter_app, length_app. simpl.
  destruct (has_position m); simpl; lia.
Qed.

Lemma test_handle_lines_counters ls c :
  test_counters_agree c ->
  test_counters_agree
    (fold_left (fun s line => test_handle_line py_float line s) ls c).
Proof.
  revert c. induction ls as [|l ls IH]; intros c Hc; simpl; [exact Hc|].
  apply IH, test_handle_line_counters, Hc.
Qed.

Lemma test_step_counters test_duration c i :
  test_counters_agree c ->
  test_counters_agree (test_step py_float test_duration c i).
Proof.
  intros Hc. unfold test_step, test_iteration.
  destruct (t_phase c); [exact Hc| |exact Hc].
  destruct (test_duration <=? t_now i - start_time c)%Z; [exact Hc|].
  destruct (t_received i) as [[|x data]| | |]; simpl; try exact Hc.
  rewrite process_complete_lines_fold. simpl.
  apply (test_handle_lines_counters _ c Hc).
Qed.

Lemma test_steps_counters test_duration inputs c :
  test_counters_agree c ->
  test_counters_agree (fold_left (test_step py_float test_duration) inputs c).
Proof.
  revert c. induction inputs as [|i inputs IH]; intros c Hc; simpl;
    [exact Hc|].
  apply IH, test_step_counters, Hc.
Qed.

(** X10: in [run_test] the two counters never drift from the file: at every
    point of a run [message_count] is the number of rows written and
    [position_messages] is the number of those rows that hold both a
    latitude and a longitude, so it never exceeds [message_count]. *)
Theorem run_test_counters (test_duration t0 : Z) (inputs : list test_input) :
  t_message_count (run_test py_float test_duration t0 inputs) =
    length (t_rows (run_test py_float test_duration t0 inputs)) /\
  position_messages (run_test py_float test_duration t0 inputs) =
    length (filter has_position
              (t_rows (run_test py_float test_duration t0 inputs))) /\
  position_messages (run_test py_float test_duration t0 inputs) <=
    t_message_count (run_test py_float test_duration t0 inputs).
Proof.
  assert (H : test_counters_agree (run_test py_float test_duration t0 inputs))
    by (apply test_steps_counters; split; reflexivity).
  destruct H as [Hm Hp]. split; [exact Hm|]. split; [exact Hp|].
  rewrite Hm, Hp. apply filter_length_le.
Qed.

End TestClientExtras.

(** ** [run_persistent] as a function of the text received *)

Lemma raw_rows_of_lines_app (a b : list str) :
  raw_rows_of_lines (a ++ b) = raw_rows_of_lines a ++ raw_rows_of_lines b.
Proof. unfold raw_rows_of_lines. rewrite filter_app, map_app. reflexivity. Qed.

Lemma p_handle_lines (ls : list str) (c : PersistentADSBClient) :
  fold_left (fun s line => p_handle_line line s) ls c =
  mkPersistentADSBClient (p_phase c) (p_buffer c)
    (p_message_count c + length (raw_rows_of_lines ls))
    (connection_attempts c) (connection_start c)
    (raw_rows c ++ raw_rows_of_lines ls).
Proof.
  revert c. induction ls as [|l ls IH]; intros c.
  - destruct c; simpl. rewrite Nat.add_0_r, app_nil_r. reflexivity.
  - cbn [fold_left]. rewrite IH. unfold p_handle_line, raw_rows_of_lines.
    cbn [filter]. destruct (truthy (strip l)); [|reflexivity].
    simpl. rewrite <- app_assoc. f_equal. lia.
Qed.

Lemma persistent_step_data end_time c i x data :
  p_phase c = CONNECTED ->
  (t_end_check i < end_time)%Z ->
  (t_idle_check i - connection_start c < no_data_timeout)%Z ->
  received i = RecvData (x :: data) ->
  persistent_step end_time c i =
  let ls := fst (extract_lines (p_buffer c ++ x :: data)) in
  mkPersistentADSBClient CONNECTED
    (snd (extract_lines (p_buffer c ++ x :: data)))
    (p_message_count c + length (raw_rows_of_lines ls))
    (connection_attempts c) (t_data i)
    (raw_rows c ++ raw_rows_of_lines ls).
Proof.
  intros Hc H1 H2 Hr. unfold persistent_step, persistent_iteration.
  apply Z.ltb_lt in H1, H2. rewrite Hc, H1, H2, Hr. simpl.
  rewrite process_complete_lines_fold, p_handle_lines. reflexivity.
Qed.

(** One step takes in [consumed_by] and does to the rows, the counter and
    the buffer what the line loop does with that text. *)
Lemma persistent_event_text end_time c ev :
  contains LF (p_buffer c) = false ->
  let text := p_buffer c ++ consumed_by end_time c ev in
  let c' := persistent_event end_time c ev in
  p_buffer c' = snd (extract_lines text) /\
  raw_rows c' = raw_rows c ++ raw_rows_of_lines (fst (extract_lines text)) /\
  p_message_count c' =
    p_message_count c + length (raw_rows_of_lines (fst (extract_lines text))).
Proof.
  intros Hb. cbv zeta.
  assert (Hnone : forall c', p_buffer c' = p_buffer c ->
            raw_rows c' = raw_rows c ->
            p_message_count c' = p_message_count c ->
            p_buffer c' = snd (extract_lines (p_buffer c ++ [])) /\
            raw_rows c' =
              raw_rows c
              ++ raw_rows_of_lines (fst (extract_lines (p_buffer c ++ []))) /\
            p_message_count c' =
              p_message_count c
              + length (raw_rows_of_lines
                          (fst (extract_lines (p_buffer c ++ []))))).
  { intros c' E1 E2 E3.
    rewrite app_nil_r, (extract_lines_no_line_feed _ Hb). simpl.
    rewrite app_nil_r, Nat.add_0_r. auto. }
  destruct ev as [now connected t_start|i].
  - replace (consumed_by end_time c (PConnect now connected t_start))
      with (@nil char) by (unfold consumed_by; destruct (p_phase c); reflexivity).
    apply Hnone; unfold persistent_event, persistent_connect;
      destruct (p_phase c); try reflexivity;
      destruct (now <? end_time)%Z; try reflexivity;
      destruct connected; reflexivity.
  - unfold persistent_event, consumed_by.
    destruct (p_phase c) eqn:Hc;
      [apply Hnone; unfold persistent_step; rewrite Hc; reflexivity| |
       apply Hnone; unfold persistent_step; rewrite Hc; reflexivity].
    destruct (t_end_check i <? end_time)%Z eqn:E1;
      [|apply Hnone; unfold persistent_step, persistent_iteration;
        rewrite Hc, E1; reflexivity].
    destruct (t_idle_check i - connection_start c <? no_data_timeout)%Z eqn:E2;
      [|apply Hnone; unfold persistent_step, persistent_iteration;
        rewrite Hc, E1, E2; reflexivity].
    simpl.
    destruct (received i) as [[|x data]| | |] eqn:Hr;
      try (apply Hnone; unfold persistent_step, persistent_iteration;
           rewrite Hc, E1, E2, Hr; reflexivity).
    apply Z.ltb_lt in E1, E2.
    rewrite (persistent_step_data end_time c i x data Hc E1 E2 Hr).
    simpl. auto.
Qed.

Lemma persistent_run_from end_time evs c :
  contains LF (p_buffer c) = false ->
  let text := p_buffer c ++ text_consumed end_time c evs in
  let final := fold_left (persistent_event end_time) evs c in
  p_buffer final = snd (extract_lines text) /\
  raw_rows final = raw_rows c ++ raw_rows_of_lines (fst (extract_lines text)) /\
  p_message_count final =
    p_message_count c + length (raw_rows_of_lines (fst (extract_lines text))).
Proof.
  revert c. induction evs as [|ev evs IH]; intros c Hb; cbv zeta.
  - simpl. rewrite app_nil_r, (extract_lines_no_line_feed _ Hb). simpl.
    rewrite app_nil_r, Nat.add_0_r. auto.
  - cbn [fold_left text_consumed].
    destruct (persistent_event_text end_time c ev Hb) as (E1 & E2 & E3).
    destruct (IH (persistent_event end_time c ev)) as (F1 & F2 & F3).
    { rewrite E1. apply extract_lines_remainder. }
    rewrite F1, F2, F3, E1, E2, E3.
    rewrite (app_assoc (p_buffer c)),
      (extract_lines_app (p_buffer c ++ consumed_by end_time c ev)).
    cbn [fst snd]. rewrite raw_rows_of_lines_app, length_app.
    rewrite <- app_assoc, Nat.add_assoc. auto.
Qed.

(** X11: what [run_persistent] has written depends only on the text it has
    taken in over all its connections, joined end to end: the rows are the
    trimmed complete lines of that text that are not blank, in order, the
    counter is their number and the buffer is the unterminated tail.  The
    buffer is not emptied when a connection ends, so a line cut by a
    disconnection is completed by the first data of the next connection. *)
Theorem run_persistent_writes_the_lines_of_the_text (end_time : Z)
    (evs : list p_event) :
  let text :=
    text_consumed end_time (mkPersistentADSBClient DISCONNECTED [] 0 0 0 [])
      evs in
  let final := run_persistent end_time evs in
  raw_rows final = raw_rows_of_lines (fst (extract_lines text)) /\
  p_message_count final = length (raw_rows final) /\
  p_buffer final = snd (extract_lines text).
Proof.
  cbv zeta. unfold run_persistent.
  destruct (persistent_run_from end_time evs
              (mkPersistentADSBClient DISCONNECTED [] 0 0 0 []) eq_refl)
    as (E1 & E2 & E3).
  simpl in E1, E2, E3. rewrite E2, E3, E1. auto.
Qed.

(** X12: every row [run_persistent] writes is a non-empty text without
    whitespace at either end and without a line feed. *)
Theorem raw_rows_are_trimmed_lines (end_time : Z) (evs : list p_event) :
  Forall (fun row => row <> [] /\ strip row = row /\ contains LF row = false)
    (raw_rows (run_persistent end_time evs)).
Proof.
  unfold run_persistent.
  destruct (persistent_run_from end_time evs
              (mkPersistentADSBClient DISCONNECTED [] 0 0 0 []) eq_refl)
    as (_ & -> & _).
  simpl.
  match goal with |- context [extract_lines ?t] =>
    destruct (extract_lines_spec t) as (raws & -> & Hraws & _)
  end.
  unfold raw_rows_of_lines. apply Forall_forall. intros row Hrow.
  apply in_map_iff in Hrow as (line & <- & Hline).
  apply filter_In in Hline as [Hline Htruthy].
  apply in_map_iff in Hline as (raw & <- & Hraw).
  rewrite Forall_forall in Hraws. specialize (Hraws raw Hraw).
  split; [|split].
  - intros E. rewrite E in Htruthy. discriminate.
  - apply strip_idempotent.
  - apply contains_false. intros Hin. apply in_strip, in_rstrip_by in Hin.
    apply contains_false in Hraws. contradiction.
Qed.

(** X13: a partial line survives a reconnection.  When a receive times out
    while the buffer holds the beginning [p] of a line, and after the
    reconnection the first data is the rest [d] of the line with its line
    feed, the row written is the whole line [p ++ d], trimmed. *)
Theorem partial_line_survives_reconnection (end_time : Z)
    (c : PersistentADSBClient) (i_timeout i_data : inner_input)
    (now t_start : Z) (d : str) :
  p_phase c = CONNECTED ->
  received i_timeout = RecvTimeout ->
  (now < end_time)%Z ->
  (t_end_check i_data < end_time)%Z ->
  (t_idle_check i_data - t_start < no_data_timeout)%Z ->
  received i_data = RecvData (d ++ [LF]) ->
  contains LF (p_buffer c ++ d) = false ->
  truthy (strip (p_buffer c ++ d)) = true ->
  let c1 := persistent_step end_time c i_timeout in
  let c2 := persistent_connect end_time now true t_start c1 in
  let c3 := persistent_step end_time c2 i_data in
  p_phase c1 = DISCONNECTED /\
  p_phase c3 = CONNECTED /\
  raw_rows c3 = raw_rows c ++ [strip (p_buffer c ++ d)] /\
  p_buffer c3 = [].
Proof.
  intros Hc Ht Hnow H1 H2 Hd Hlf Hline. cbv zeta.
  rewrite (persistent_step_timeout end_time c i_timeout Hc Ht).
  unfold persistent_connect. cbn [p_set_phase p_phase].
  apply Z.ltb_lt in Hnow. rewrite Hnow.
  cbn [p_buffer p_message_count connection_attempts connection_start raw_rows].
  split; [reflexivity|].
  assert (Hne : exists x t, d ++ [LF] = x :: t).
  { destruct d as [|x t]; simpl; eauto. }
  destruct Hne as (x & t & E). rewrite E in Hd.
  match goal with
  | |- context [persistent_step end_time ?c2 i_data] =>
      rewrite (persistent_step_data end_time c2 i_data x t eq_refl H1 H2 Hd)
  end.
  cbv zeta. cbn [p_buffer raw_rows p_phase]. rewrite <- E.
  rewrite app_assoc, extract_lines_unfold, split1_at by exact Hlf.
  rewrite extract_lines_no_line_feed by reflexivity. cbn [fst snd].
  destruct (rstrip_by_split (N.eqb CR) (p_buffer c ++ d)) as (r & Er & Hr).
  assert (Hstrip : strip (rstrip CR (p_buffer c ++ d)) = strip (p_buffer c ++ d)).
  { rewrite Er at 2. rewrite <- (app_nil_l (rstrip_by _ _ ++ r)).
    rewrite strip_padded; [reflexivity|reflexivity|].
    apply forallb_forall. intros y Hy.
    rewrite forallb_forall in Hr. apply Hr, N.eqb_eq in Hy. subst y.
    reflexivity. }
  unfold raw_rows_of_lines, p_set_phase.
  cbn [filter p_buffer raw_rows]. rewrite Hstrip, Hline.
  simpl. rewrite Hstrip. auto.
Qed.

Lemma partial_line_survives_reconnection_witness :
  p_phase
    (persistent_step 300
       (mkPersistentADSBClient CONNECTED (lit "MSG,3") 0 1 0 [])
       (mkInnerInput 10 10 RecvTimeout 10)) = DISCONNECTED /\
  p_phase
    (persistent_step 300
       (persistent_connect 300 20 true 21
          (persistent_step 300
             (mkPersistentADSBClient CONNECTED (lit "MSG,3") 0 1 0 [])
             (mkInnerInput 10 10 RecvTimeout 10)))
       (mkInnerInput 22 22 (RecvData (lit ",1" ++ [LF])) 23)) = CONNECTED /\
  raw_rows
    (persistent_step 300
       (persistent_connect 300 20 true 21
          (persistent_step 300
             (mkPersistentADSBClient CONNECTED (lit "MSG,3") 0 1 0 [])
             (mkInnerInput 10 10 RecvTimeout 10)))
       (mkInnerInput 22 22 (RecvData (lit ",1" ++ [LF])) 23)) =
  raw_rows (mkPersistentADSBClient CONNECTED (lit "MSG,3") 0 1 0 [])
  ++ [strip
        (p_buffer (mkPersistentADSBClient CONNECTED (lit "MSG,3") 0 1 0 [])
         ++ lit ",1")] /\
  p_buffer
    (persistent_step 300
       (persistent_connect 300 20 true 21
          (persistent_step 300
             (mkPersistentADSBClient CONNECTED (lit "MSG,3") 0 1 0 [])
             (mkInnerInput 10 10 RecvTimeout 10)))
       (mkInnerInput 22 22 (RecvData (lit ",1" ++ [LF])) 23)) = [].
Proof.
  apply (partial_line_survives_reconnection 300
           (mkPersistentADSBClient CONNECTED (lit "MSG,3") 0 1 0 [])
           (mkInnerInput 10 10 RecvTimeout 10)
           (mkInnerInput 22 22 (RecvData (lit ",1" ++ [LF])) 23)
           20 21 (lit ",1")); reflexivity.
Defined.

(** ** [run_persistent]: what keeps a connection and what ends the run *)

(** X14: a persistent connection is kept for as long as data keeps coming:
    when every receive is made before the end of the run, less than
    [no_data_timeout] seconds after the previous data, and brings data, the
    client is still connected after all of them and has made no further
    connection attempt. *)
Theorem steady_data_keeps_the_connection (end_time : Z)
    (inputs : list inner_input) (c : PersistentADSBClient) :
  p_phase c = CONNECTED ->
  timely end_time (connection_start c) inputs ->
  p_phase (fold_left (persistent_step end_time) inputs c) = CONNECTED /\
  connection_attempts (fold_left (persistent_step end_time) inputs c) =
  connection_attempts c.
Proof.
  revert c. induction inputs as [|i inputs IH]; intros c Hc Ht; simpl.
  - auto.
  - destruct Ht as (H1 & H2 & (data & Hne & Hr) & Ht).
    destruct data as [|x data]; [exfalso; apply Hne; reflexivity|].
    rewrite (persistent_step_data end_time c i x data Hc H1 H2 Hr).
    cbv zeta.
    match goal with
    | |- context [fold_left _ inputs ?c1] =>
        destruct (IH c1 eq_refl Ht) as [IH1 IH2]
    end.
    rewrite IH1, IH2. auto.
Qed.

Lemma steady_data_keeps_the_connection_witness :
  p_phase
    (fold_left (persistent_step 300)
       [mkInnerInput 10 10 (RecvData (lit "MSG")) 11;
        mkInnerInput 70 70 (RecvData (lit ",3")) 70]
       (mkPersistentADSBClient CONNECTED [] 0 1 0 [])) = CONNECTED /\
  connection_attempts
    (fold_left (persistent_step 300)
       [mkInnerInput 10 10 (RecvData (lit "MSG")) 11;
        mkInnerInput 70 70 (RecvData (lit ",3")) 70]
       (mkPersistentADSBClient CONNECTED [] 0 1 0 [])) =
  connection_attempts (mkPersistentADSBClient CONNECTED [] 0 1 0 []).
Proof.
  apply (steady_data_keeps_the_connection 300
           [mkInnerInput 10 10 (RecvData (lit "MSG")) 11;
            mkInnerInput 70 70 (RecvData (lit ",3")) 70]
           (mkPersistentADSBClient CONNECTED [] 0 1 0 [])).
  - reflexivity.
  - simpl. unfold no_data_timeout.
    repeat split; try lia; eexists; (split; [|reflexivity]); discriminate.
Defined.

Lemma persistent_event_goes_on end_time c ev :
  p_phase c <> TERMINATED ->
  match ev with
  | PConnect now _ _ => (now < end_time)%Z
  | PReceive i => received i <> RecvInterrupt
  end ->
  p_phase (persistent_event end_time c ev) <> TERMINATED.
Proof.
  intros Hc Hev. destruct ev as [now connected t_start|i]; simpl.
  - unfold persistent_connect. destruct (p_phase c) eqn:E; try congruence.
    apply Z.ltb_lt in Hev. rewrite Hev.
    destruct connected; simpl; discriminate.
  - unfold persistent_step. destruct (p_phase c) eqn:E; try congruence.
    unfold persistent_iteration.
    destruct (t_end_check i <? end_time)%Z eqn:E1; [|simpl; discriminate].
    destruct (t_idle_check i - connection_start c <? no_data_timeout)%Z eqn:E2;
      [|simpl; discriminate].
    simpl. destruct (received i) as [[|x data]| | |] eqn:Hr;
      simpl; try discriminate; [|congruence].
    match goal with
    | |- context [process_complete_lines p_handle_line ?b ?c1] =>
        pose proof (p_lines_keep_phase b c1) as Hp;
        destruct (process_complete_lines p_handle_line b c1) as [b' c']
    end.
    simpl in *. rewrite Hp, E. discriminate.
Qed.

(** X15: [run_persistent] does not give up before its time: failed
    connection attempts, timeouts, receive errors, closed connections and
    idle periods, in any number and order, never end the run.  It ends
    only when the clock at the top of the outer loop has reached the end
    time, or on the user's interrupt. *)
Theorem run_persistent_goes_on_until_the_end (end_time : Z)
    (evs : list p_event) :
  Forall (fun ev =>
            match ev with
            | PConnect now _ _ => (now < end_time)%Z
            | PReceive i => received i <> RecvInterrupt
            end) evs ->
  p_phase (run_persistent end_time evs) <> TERMINATED.
Proof.
  unfold run_persistent.
  assert (H0 : p_phase (mkPersistentADSBClient DISCONNECTED [] 0 0 0 [])
               <> TERMINATED) by discriminate.
  revert H0. generalize (mkPersistentADSBClient DISCONNECTED [] 0 0 0 []).
  induction evs as [|ev evs IH]; intros c Hc Hevs; simpl; [exact Hc|].
  inversion Hevs as [|? ? Hev Hrest]; subst.
  apply IH; [|exact Hrest].
  apply persistent_event_goes_on; assumption.
Qed.

Lemma run_persistent_goes_on_until_the_end_witness :
  p_phase
    (run_persistent 300
       [PConnect 0 false 0; PConnect 30 true 31;
        PReceive (mkInnerInput 40 40 RecvTimeout 40);
        PConnect 50 true 51;
        PReceive (mkInnerInput 120 120 (RecvData (lit "MSG")) 120)])
  <> TERMINATED.
Proof.
  apply (run_persistent_goes_on_until_the_end 300
           [PConnect 0 false 0; PConnect 30 true 31;
            PReceive (mkInnerInput 40 40 RecvTimeout 40);
            PConnect 50 true 51;
            PReceive (mkInnerInput 120 120 (RecvData (lit "MSG")) 120)]).
  repeat constructor; discriminate.
Defined.
